(** * Template-agent: the conversation state machine and its extraction rules

    A shallow embedding of [src/agents/nodes.py], [src/agents/state.py],
    the graph of [src/agents/__init__.py], the poster tool of
    [src/agents/tools.py] with the renderer of
    [src/utils/template_renderer.py], and the template catalogue and the
    chat endpoint of [src/app.py], followed by the properties of the
    specification that were checked against it and by further properties
    of the code.

    Conventions of the embedding:
    - a Python [str] is a [string]; the matcher works on its characters
      ([list ascii]).  Character classes are Python's on the code points
      0..127 ([\d] = 0-9, [\w] = letters, digits and underscore, [\s] =
      the code points 9-13, 28-31 and 32); the code points above 127 are
      ordinary characters that belong to none of the three;
    - a Python [dict] from parameter names to values is a
      [gmap string string]; [None] is [option];
    - an exception that leaves a function is the [Raise] case of [res];
    - the rendering service and the language model are parameters of the
      node functions ([invoke], [llm]);
    - a turn-processing cycle ([turn]) is the arrival of one user message
      followed by one run of the graph; what [chat_endpoint] does around
      it is not part of the cycle, and is modelled on its own
      ([chat_endpoint]);
    - the HTTP request of the renderer, its environment variables, the
      welcome text and the session identifier that the endpoint draws
      are parameters too. *)

From Stdlib Require Import ZArith Ascii String Bool Lia DecimalString.
From Stdlib Require DecimalN.
From stdpp Require Import gmap strings list fin_maps.

Open Scope Z_scope.

(** ** Characters and strings, as Python sees them *)

Abbreviation chars := (list ascii).

Definition code (c : ascii) : Z := Z.of_N (N_of_ascii c).

Definition is_digit (c : ascii) : bool := (48 <=? code c) && (code c <=? 57).
Definition is_upper (c : ascii) : bool := (65 <=? code c) && (code c <=? 90).
Definition is_lower (c : ascii) : bool := (97 <=? code c) && (code c <=? 122).

(** [str.isspace] on one character, which is also what [\s] matches. *)
Definition is_space (c : ascii) : bool :=
  ((9 <=? code c) && (code c <=? 13)) || ((28 <=? code c) && (code c <=? 32)).

(** [\w] *)
Definition is_word (c : ascii) : bool :=
  is_digit c || is_upper c || is_lower c || (code c =? 95).

Definition lower_char (c : ascii) : ascii :=
  if is_upper c then ascii_of_N (Z.to_N (code c + 32)) else c.

(** [s.lower()] *)
Definition lower (s : chars) : chars := map lower_char s.

Definition eqc (a b : ascii) : bool := Ascii.eqb a b.

(** [s.startswith(p)] *)
Fixpoint starts_with (p s : chars) : bool :=
  match p, s with
  | [], _ => true
  | x :: p', y :: s' => eqc x y && starts_with p' s'
  | _ :: _, [] => false
  end.

(** [p in s] *)
Fixpoint contains (p s : chars) : bool :=
  starts_with p s ||
  match s with
  | [] => false
  | _ :: s' => contains p s'
  end.

(** [s.lstrip()], [s.rstrip()] and [s.strip()] *)
Fixpoint lstrip (s : chars) : chars :=
  match s with
  | x :: s' => if is_space x then lstrip s' else s
  | [] => []
  end.

Definition rstrip (s : chars) : chars := rev (lstrip (rev s)).
Definition strip (s : chars) : chars := rstrip (lstrip s).

(** [s.replace(c, '')] for a single character [c] *)
Definition remove_char (c : ascii) (s : chars) : chars :=
  List.filter (fun x => negb (eqc x c)) s.

Definition chars_of (s : string) : chars := list_ascii_of_string s.
Definition str (s : chars) : string := string_of_list_ascii s.

(** The double quote, which the patterns of templates 1 to 3 mention. *)
Definition dquote : ascii := "034"%char.
Definition squote : ascii := "039"%char.

(** ** Exceptions *)

Inductive pyexn : Type :=
| ValueError
| OverflowError
| AttributeError.

Inductive res (A : Type) : Type :=
| Ok (a : A)
| Raise (e : pyexn).
Arguments Ok {A} a.
Arguments Raise {A} e.

Definition bind {A B : Type} (x : res A) (f : A -> res B) : res B :=
  match x with
  | Ok a => f a
  | Raise e => Raise e
  end.

Notation "'do' x <- e ; k" := (bind e (fun x => k))
  (at level 10, x name, e at level 100, k at level 200).

(** ** The regular expressions of the source

    The patterns of [nodes.py] use literals, character sets, greedy [*]
    and [+] over one character set, [?], alternation, concatenation and
    capturing groups, none of them under a repetition or inside one
    branch of an alternation.  [ms] lists every way a pattern matches a
    prefix of the subject, in the order in which Python's backtracking
    matcher tries them: greedy repetitions from the longest to the
    shortest, [?] present before absent, alternatives from left to
    right.  The first element is therefore the match [re] reports. *)

Inductive cls : Type :=
| CChar (c : ascii)
| CDigit
| CSpace
| CWord.

Inductive atom : Type :=
| AnyOf (l : list cls)
| NoneOf (l : list cls).

Inductive regex : Type :=
| Lit (s : string)
| One (a : atom)
| Star (a : atom)
| Plus (a : atom)
| Opt (r : regex)
| Alt (r1 r2 : regex)
| Seq (r1 r2 : regex)
| Grp (r : regex).

Definition cls_ok (ic : bool) (k : cls) (x : ascii) : bool :=
  match k with
  | CChar c => if ic then eqc (lower_char c) (lower_char x) else eqc c x
  | CDigit => is_digit x
  | CSpace => is_space x
  | CWord => is_word x
  end.

Definition atom_ok (ic : bool) (a : atom) (x : ascii) : bool :=
  match a with
  | AnyOf l => existsb (fun k => cls_ok ic k x) l
  | NoneOf l => negb (existsb (fun k => cls_ok ic k x) l)
  end.

(** The subject starts with the literal [l]: the part it covers and the
    rest.  Under [re.IGNORECASE] ([ic]) both sides are lowered. *)
Fixpoint lit_match (ic : bool) (l s : chars) : option (chars * chars) :=
  match l, s with
  | [], _ => Some ([], s)
  | c :: l', x :: s' =>
      if (if ic then eqc (lower_char c) (lower_char x) else eqc c x)
      then match lit_match ic l' s' with
           | Some (w, r) => Some (x :: w, r)
           | None => None
           end
      else None
  | _ :: _, [] => None
  end.

(** Every split of [s] into a run of characters satisfying [p] and the
    rest, the longest run first. *)
Fixpoint star_from (p : ascii -> bool) (s : chars) : list (chars * chars) :=
  match s with
  | x :: s' =>
      if p x
      then map (fun wr => (x :: fst wr, snd wr)) (star_from p s') ++ [([], s)]
      else [([], s)]
  | [] => [([], [])]
  end.

(** One way of matching: the text covered, the capturing groups in the
    order of their opening parentheses, and what is left. *)
Definition outcome : Type := chars * list chars * chars.

Definition no_groups (wr : chars * chars) : outcome := (fst wr, [], snd wr).

Fixpoint ms (ic : bool) (r : regex) (s : chars) : list outcome :=
  match r with
  | Lit l =>
      match lit_match ic (chars_of l) s with
      | Some wr => [no_groups wr]
      | None => []
      end
  | One a =>
      match s with
      | x :: s' => if atom_ok ic a x then [([x], [], s')] else []
      | [] => []
      end
  | Star a => map no_groups (star_from (atom_ok ic a) s)
  | Plus a =>
      match s with
      | x :: s' =>
          if atom_ok ic a x
          then map (fun wr => (x :: fst wr, [], snd wr))
                   (star_from (atom_ok ic a) s')
          else []
      | [] => []
      end
  | Opt r1 => ms ic r1 s ++ [([], [], s)]
  | Alt r1 r2 => ms ic r1 s ++ ms ic r2 s
  | Seq r1 r2 =>
      flat_map
        (fun o1 : outcome =>
           let '(w1, g1, s1) := o1 in
           map (fun o2 : outcome =>
                  let '(w2, g2, s2) := o2 in (w1 ++ w2, g1 ++ g2, s2))
               (ms ic r2 s1))
        (ms ic r1 s)
  | Grp r1 =>
      map (fun o : outcome => let '(w, g, s') := o in (w, w :: g, s'))
          (ms ic r1 s)
  end.

(** A match object: [group(0)] and the numbered groups. *)
Definition rmatch : Type := chars * list chars.

Definition group (n : nat) (m : rmatch) : chars :=
  match n with
  | O => fst m
  | S k => nth k (snd m) []
  end.

Definition first_match (ic : bool) (r : regex) (s : chars) : option rmatch :=
  match ms ic r s with
  | (w, g, _) :: _ => Some (w, g)
  | [] => None
  end.

(** [re.search(r, s)]: the match at the leftmost position that has one. *)
Fixpoint re_search (ic : bool) (r : regex) (s : chars) : option rmatch :=
  match first_match ic r s with
  | Some m => Some m
  | None =>
      match s with
      | [] => None
      | _ :: s' => re_search ic r s'
      end
  end.

(** [re.findall(r, s)]: the matches from left to right, each search
    resuming where the previous match ended ([skip] counts the characters
    of the last match that are still to be passed). *)
Fixpoint findall_from (ic : bool) (r : regex) (skip : nat) (s : chars)
  : list rmatch :=
  match skip with
  | S k =>
      match s with
      | [] => []
      | _ :: s' => findall_from ic r k s'
      end
  | O =>
      match first_match ic r s with
      | Some m =>
          m :: match s with
               | [] => []
               | _ :: s' => findall_from ic r (Nat.pred (List.length (fst m))) s'
               end
      | None =>
          match s with
          | [] => []
          | _ :: s' => findall_from ic r 0 s'
          end
      end
  end.

Definition re_findall (ic : bool) (r : regex) (s : chars) : list rmatch :=
  findall_from ic r 0 s.

Definition IGNORECASE : bool := true.
Definition NOFLAGS : bool := false.

(** Pattern syntax. *)
Declare Scope re_scope.
Delimit Scope re_scope with re.
Bind Scope re_scope with regex.
Infix "⋅" := Seq (at level 41, right associativity) : re_scope.
Infix "∥" := Alt (at level 42, right associativity) : re_scope.

Definition d_ : atom := AnyOf [CDigit].
Definition s_ : atom := AnyOf [CSpace].
Definition S_ : atom := NoneOf [CSpace].
Definition w_ : atom := AnyOf [CWord].

Fixpoint lits (l : list string) : regex :=
  match l with
  | [] => One (AnyOf [])
  | [s] => Lit s
  | s :: l' => Alt (Lit s) (lits l')
  end.

(** ** Numbers

    [int(float(s))] for a string [s] of digits and dots, which is all
    the price patterns can capture once the commas are removed.
    [float] accepts [digits], [digits.], [digits.digits] and [.digits]
    and raises [ValueError] otherwise; its result is the binary64 number
    nearest to the decimal value (ties to even), infinity from
    [2^1024 - 2^970] on; [int] truncates and raises [OverflowError] on
    infinity. *)

Definition digit_value (c : ascii) : Z := code c - 48.

Definition digits_value (s : chars) : Z :=
  fold_left (fun acc c => acc * 10 + digit_value c) s 0.

Fixpoint split_dot (s : chars) : chars * option chars :=
  match s with
  | [] => ([], None)
  | x :: s' =>
      if eqc x "." then ([], Some s')
      else let '(i, f) := split_dot s' in (x :: i, f)
  end.

(** The decimal literal [s] as a fraction [n / 10^k]. *)
Definition parse_decimal (s : chars) : option (Z * Z) :=
  let '(i, f) := split_dot s in
  let f := match f with Some f => f | None => [] end in
  if forallb is_digit (i ++ f) && negb (Nat.eqb (List.length (i ++ f)) 0)
  then Some (digits_value (i ++ f), Z.of_nat (List.length f))
  else None.

(** [floor (log2 (n / d))] for positive [n] and [d]. *)
Definition float_exponent (n d : Z) : Z :=
  let e0 := Z.log2 n - Z.log2 d in
  if 0 <=? e0
  then (if n <? d * 2 ^ e0 then e0 - 1 else e0)
  else (if n * 2 ^ (- e0) <? d then e0 - 1 else e0).

(** [int(float(n / d))] for [n >= 0] and [d > 0]; [None] is infinity. *)
Definition int_of_float (n d : Z) : option Z :=
  if n =? 0 then Some 0
  else
    let q := Z.max (float_exponent n d - 52) (-1074) in
    let num := if 0 <=? q then n else n * 2 ^ (- q) in
    let den := if 0 <=? q then d * 2 ^ q else d in
    let m0 := num / den in
    let r := num mod den in
    let m := if (den <? 2 * r) || ((2 * r =? den) && Z.odd m0)
             then m0 + 1 else m0 in
    if 0 <=? q
    then (if 2 ^ 1024 <=? m * 2 ^ q then None else Some (m * 2 ^ q))
    else Some (m / 2 ^ (- q)).

Definition int_float (s : chars) : res Z :=
  match parse_decimal s with
  | None => Raise ValueError
  | Some (n, k) =>
      match int_of_float n (10 ^ k) with
      | Some z => Ok z
      | None => Raise OverflowError
      end
  end.

(** [str(n)] for [n >= 0] *)
Definition decimal (n : Z) : chars :=
  chars_of (NilZero.string_of_uint (N.to_uint (Z.to_N n))).

(** Commas between groups of three digits, on the reversed digits;
    [k] digits are still due before the next comma. *)
Fixpoint group3 (k : nat) (s : chars) : chars :=
  match s with
  | [] => []
  | x :: s' =>
      match k with
      | O => "," %char :: x :: group3 2 s'
      | S k' => x :: group3 k' s'
      end
  end.

(** ["${:,}".format(n)] for [n >= 0] *)
Definition format_price (n : Z) : chars :=
  "$"%char :: rev (group3 3 (rev (decimal n))).

(** ** Pattern Extractor ([nodes.py], lines 13-239) *)

Definition DQ : string := String dquote EmptyString.

(** [int(m.group(1))] for a group that holds digits. *)
Definition int_of_group (m : rmatch) : Z := digits_value (group 1 m).

Definition matched (o : option rmatch) : bool :=
  match o with Some _ => true | None => false end.

(** [(?:use|select|choose|prefer|want|generate|create|try)\s+(?:the\s+)?template\s+(\d)] *)
Definition re_explicit_template : regex :=
  (lits ["use"; "select"; "choose"; "prefer"; "want"; "generate"; "create"; "try"]
   ⋅ Plus s_ ⋅ Opt (Lit "the" ⋅ Plus s_) ⋅ Lit "template" ⋅ Plus s_
   ⋅ Grp (One d_))%re.

(** [template\s*(?:number|#)?\s*(\d)] *)
Definition re_template_number : regex :=
  (Lit "template" ⋅ Star s_ ⋅ Opt (Lit "number" ∥ Lit "#") ⋅ Star s_
   ⋅ Grp (One d_))%re.

Definition re_theme1 : regex :=
  lits ["modern home"; "for sale"; "start from"; "buy now"].
Definition re_theme2 : regex :=
  lits ["house agent"; "information"; "contact"; "technology"; "template 2"].
Definition re_theme3 : regex :=
  lits ["best home"; "multiple photos"; "i want button"; "three images";
        "template 3"].

(** The number a pattern captured, when it names a template. *)
Definition template_in_range (o : option rmatch) : option Z :=
  match o with
  | Some m =>
      let template_num := int_of_group m in
      if (1 <=? template_num) && (template_num <=? 3)
      then Some template_num else None
  | None => None
  end.

Definition extract_template_preference (text : string) : Z :=
  let t := chars_of text in
  match template_in_range (re_search IGNORECASE re_explicit_template t) with
  | Some n => n
  | None =>
  match template_in_range (re_search IGNORECASE re_template_number t) with
  | Some n => n
  | None =>
      if matched (re_search IGNORECASE re_theme1 t) then 1
      else if matched (re_search IGNORECASE re_theme2 t) then 2
      else if matched (re_search IGNORECASE re_theme3 t) then 3
      else 1
  end
  end.

Definition image_ext : regex := lits ["jpg"; "jpeg"; "png"; "gif"; "webp"].

(** [(https?://\S+\.(jpg|jpeg|png|gif|webp))] *)
Definition re_image_url : regex :=
  Grp (Lit "http" ⋅ Opt (Lit "s") ⋅ Lit "://" ⋅ Plus S_ ⋅ Lit "."
       ⋅ Grp image_ext)%re.

(** [(www\.\S+\.(jpg|jpeg|png|gif|webp))] *)
Definition re_www_url : regex :=
  Grp (Lit "www." ⋅ Plus S_ ⋅ Lit "." ⋅ Grp image_ext)%re.

(** [(www\.\S+\.\w+)] *)
Definition re_general_url : regex :=
  Grp (Lit "www." ⋅ Plus S_ ⋅ Lit "." ⋅ Plus w_)%re.

Definition price_chars : atom := AnyOf [CDigit; CChar ","; CChar "."].

Definition price_verbs : regex :=
  lits ["modify"; "change"; "update"; "set"; "make"].

(** [(?:modify|change|update|set|make)(?:\s+the)?\s+price\s+(?:to|as|be)\s+\$?([\d,.]+)] *)
Definition re_price_modification : regex :=
  (price_verbs ⋅ Opt (Plus s_ ⋅ Lit "the") ⋅ Plus s_ ⋅ Lit "price" ⋅ Plus s_
   ⋅ lits ["to"; "as"; "be"] ⋅ Plus s_ ⋅ Opt (Lit "$") ⋅ Grp (Plus price_chars))%re.

(** [\$([\d,.]+)] *)
Definition re_dollar : regex := (Lit "$" ⋅ Grp (Plus price_chars))%re.

(** [(?:price|cost|value)[^\d]*(\d[\d,.]+)] *)
Definition re_price_word : regex :=
  (lits ["price"; "cost"; "value"] ⋅ Star (NoneOf [CDigit])
   ⋅ Grp (One d_ ⋅ Plus price_chars))%re.

(** [([\w\s-]+) text should be Q([^Q]+)Q], with [Q] the double quote *)
Definition re_text_should_be : regex :=
  (Grp (Plus (AnyOf [CWord; CSpace; CChar "-"])) ⋅ Lit " text should be "
   ⋅ Lit DQ ⋅ Grp (Plus (NoneOf [CChar dquote])) ⋅ Lit DQ)%re.

Definition color_chars : atom :=
  AnyOf [CChar "#"; CWord; CChar "("; CChar ")"; CChar ","; CChar ".";
         CChar " "].

(** [([\w\s-]+) color should be ([#\w(),. ]+)] *)
Definition re_color_should_be : regex :=
  (Grp (Plus (AnyOf [CWord; CSpace; CChar "-"])) ⋅ Lit " color should be "
   ⋅ Grp (Plus color_chars))%re.

Definition quote_ : atom := AnyOf [CChar dquote; CChar squote].
Definition not_quote : atom := NoneOf [CChar dquote; CChar squote].

(** [<name>\s+text\s+[Q\']([^Q\']+)[Q\']], with [Q] the double quote *)
Definition re_field_text (name : string) : regex :=
  (Lit name ⋅ Plus s_ ⋅ Lit "text" ⋅ Plus s_ ⋅ One quote_
   ⋅ Grp (Plus not_quote) ⋅ One quote_)%re.

(** [<name>\s+color\s+([#\w(),. ]+)] *)
Definition re_field_color (name : string) : regex :=
  (Lit name ⋅ Plus s_ ⋅ Lit "color" ⋅ Plus s_ ⋅ Grp (Plus color_chars))%re.

(** [secondary image\s+(\d)\s+(https?://\S+\.\w+)] *)
Definition re_secondary_image : regex :=
  (Lit "secondary image" ⋅ Plus s_ ⋅ Grp (One d_) ⋅ Plus s_
   ⋅ Grp (Lit "http" ⋅ Opt (Lit "s") ⋅ Lit "://" ⋅ Plus S_ ⋅ Lit "."
          ⋅ Plus w_))%re.

(** Lines 49-65: the image URL. *)
Definition extract_image_url (t : chars) (params : gmap string string)
  : gmap string string :=
  let params :=
    match re_search IGNORECASE re_image_url t with
    | None =>
        match re_search IGNORECASE re_www_url t with
        | Some www_url_match =>
            <["image_url" := str (chars_of "https://" ++ group 0 www_url_match)]> params
        | None => params
        end
    | Some image_url_match =>
        <["image_url" := str (group 0 image_url_match)]> params
    end in
  match params !! "image_url" with
  | None =>
      match re_search IGNORECASE re_general_url t with
      | Some general_url_match =>
          <["image_url" := str (chars_of "https://" ++ group 0 general_url_match)]> params
      | None => params
      end
  | Some _ => params
  end.

(** Lines 74-82 and 92-99: the price a pattern captured, formatted; the
    raw capture behind a dollar sign when [float] raises [ValueError]. *)
Definition price_of_match (m : rmatch) : res string :=
  let price := remove_char "," (group 1 m) in
  match int_float price with
  | Ok price_value => Ok (str (format_price price_value))
  | Raise ValueError => Ok (str ("$"%char :: group 1 m))
  | Raise e => Raise e
  end.

(** Lines 70-99. *)
Definition extract_price (t : chars) (params : gmap string string)
  : res (gmap string string) :=
  match re_search IGNORECASE re_price_modification t with
  | Some price_modification_match =>
      do p <- price_of_match price_modification_match;
      Ok (<["property_price" := p]> params)
  | None =>
      let price_match :=
        match re_search NOFLAGS re_dollar t with
        | Some m => Some m
        | None => re_search IGNORECASE re_price_word t
        end in
      match price_match with
      | Some m =>
          do p <- price_of_match m;
          Ok (<["property_price" := p]> params)
      | None => Ok params
      end
  end.

Definition element_key_of (element : chars) : string :=
  str (lower (strip element)).

(** Lines 103-116, the body of the loop. *)
Definition set_text (params : gmap string string) (m : rmatch)
  : gmap string string :=
  let element_key := element_key_of (group 1 m) in
  let content := str (group 2 m) in
  if String.eqb element_key "modern" then <["modern_text" := content]> params
  else if String.eqb element_key "home" then <["home_text" := content]> params
  else if String.eqb element_key "for sale" then <["for_sale_text" := content]> params
  else if String.eqb element_key "start from" then <["start_from_text" := content]> params
  else if String.eqb element_key "cta" || String.eqb element_key "buy now"
       then <["cta_text" := content]> params
  else if String.eqb element_key "website" then <["website_text" := content]> params
  else params.

(** Lines 120-135, the body of the loop. *)
Definition set_color (params : gmap string string) (m : rmatch)
  : gmap string string :=
  let element_key := element_key_of (group 1 m) in
  let color := str (strip (group 2 m)) in
  if String.eqb element_key "modern" then <["modern_color" := color]> params
  else if String.eqb element_key "home" then <["home_color" := color]> params
  else if String.eqb element_key "for sale" then <["for_sale_color" := color]> params
  else if String.eqb element_key "start from" then <["start_from_color" := color]> params
  else if String.eqb element_key "price" then <["price_color" := color]> params
  else if String.eqb element_key "cta" || String.eqb element_key "buy now"
       then <["cta_color" := color]> params
  else if String.eqb element_key "website" then <["website_color" := color]> params
  else params.

(** Lines 138-151, in the order of the dictionary literal. *)
Definition color_adjectives : list (string * string) :=
  [("yellow", "#FFD700"); ("red", "#FF0000"); ("blue", "#0000FF");
   ("green", "#00FF00"); ("black", "#000000"); ("white", "#FFFFFF");
   ("purple", "#800080"); ("orange", "#FFA500"); ("pink", "#FFC0CB");
   ("brown", "#A52A2A"); ("gray", "#808080"); ("gold", "#FFD700")].

(** [f"{element} <what>" in text.lower()] *)
Definition says (t : chars) (element what : string) : bool :=
  contains (chars_of element ++ chars_of what) (lower t).

Definition set_if (b : bool) (k v : string) (params : gmap string string)
  : gmap string string :=
  if b then <[k := v]> params else params.

(** Lines 154-165, the body of the loop. *)
Definition set_adjective (t : chars) (params : gmap string string)
    (ec : string * string) : gmap string string :=
  let '(element, color) := ec in
  let params := set_if (says t element " buy now" || says t element " button")
                       "cta_color" color params in
  let params := set_if (says t element " modern") "modern_color" color params in
  let params := set_if (says t element " home") "home_color" color params in
  let params := set_if (says t element " for sale") "for_sale_color" color params in
  let params := set_if (says t element " price") "price_color" color params in
  set_if (says t element " website") "website_color" color params.

(** [if re.search(p, text): params[k] = post(re.search(p, text).group(1))] *)
Definition set_from (ic : bool) (r : regex) (post : chars -> chars)
    (k : string) (t : chars) (params : gmap string string)
  : gmap string string :=
  match re_search ic r t with
  | Some m => <[k := str (post (group 1 m))]> params
  | None => params
  end.

Definition keep (s : chars) : chars := s.

(** Lines 199-205, the body of the loop. *)
Definition set_secondary (params : gmap string string) (m : rmatch)
  : gmap string string :=
  let img_num := str (group 1 m) in
  let img_url := str (group 2 m) in
  if String.eqb img_num "1" then <["secondary_image_url1" := img_url]> params
  else if String.eqb img_num "2" then <["secondary_image_url2" := img_url]> params
  else if String.eqb img_num "3" then <["secondary_image_url3" := img_url]> params
  else params.

Definition extract_template_params (text : string) (template_version : Z)
  : res (gmap string string) :=
  let t := chars_of text in
  let params : gmap string string := ∅ in
  let params := extract_image_url t params in
  if template_version =? 1 then
    do params <- extract_price t params;
    let params := fold_left set_text (re_findall NOFLAGS re_text_should_be t) params in
    let params := fold_left set_color (re_findall NOFLAGS re_color_should_be t) params in
    let params := fold_left (set_adjective t) color_adjectives params in
    Ok params
  else if template_version =? 2 then
    let params := set_from IGNORECASE (re_field_text "house agent") keep "house_agent_text" t params in
    let params := set_from IGNORECASE (re_field_text "tagline") keep "tagline_text" t params in
    let params := set_from IGNORECASE (re_field_text "info header") keep "info_header_text" t params in
    let params := set_from IGNORECASE (re_field_text "contact info") keep "contact_info_text" t params in
    let params := set_from IGNORECASE (re_field_color "main text") strip "text_1_color" t params in
    let params := set_from IGNORECASE (re_field_color "tagline") strip "text_1_copy_color" t params in
    let params := set_from IGNORECASE (re_field_color "info header") strip "text_1_copy_copy_color" t params in
    let params := set_from IGNORECASE (re_field_color "contact info") strip "text_1_copy_copy_copy_color" t params in
    Ok params
  else if template_version =? 3 then
    let params := fold_left set_secondary (re_findall IGNORECASE re_secondary_image t) params in
    let params := set_from IGNORECASE (re_field_text "main title") keep "title_1_text" t params in
    let params := set_from IGNORECASE (re_field_text "second title") keep "title_2_text" t params in
    let params := set_from IGNORECASE (re_field_text "button") keep "cta_button_text" t params in
    let params := set_from IGNORECASE (re_field_text "info") keep "info_text" t params in
    let params := set_from IGNORECASE (re_field_text "website") keep "template3_website_text" t params in
    let params := set_from IGNORECASE (re_field_color "main title") strip "title_1_color" t params in
    let params := set_from IGNORECASE (re_field_color "second title") strip "title_2_color" t params in
    let params := set_from IGNORECASE (re_field_color "button") strip "cta_color" t params in
    let params := set_from IGNORECASE (re_field_color "info") strip "info_color" t params in
    let params := set_from IGNORECASE (re_field_color "website") strip "template3_website_color" t params in
    Ok params
  else Ok params.

(** ** Session State ([state.py]) *)

Inductive message : Type :=
| SystemMessage (content : string)
| HumanMessage (content : string)
| AIMessage (content : string).

Record AgentState : Type := mkState {
  messages : list message;
  status : string;
  template_params : option (gmap string string);
  generation_result : option (gmap string string);
  template_version : Z;
  force_generation : bool
}.

Definition get_initial_state : AgentState :=
  {| messages :=
       [SystemMessage
          ("You are a helpful real estate poster design assistant. " +:+
           "You help users create customized real estate poster templates. " +:+
           "You can create posters using three different templates. " +:+
           "You will ask for details about their real estate listing and " +:+
           "help them customize the poster design.")];
     status := "WAITING_FOR_USER";
     template_params := None;
     generation_result := None;
     template_version := 1;
     force_generation := false |}.

Definition set_messages (v : list message) (s : AgentState) : AgentState :=
  mkState v (status s) (template_params s) (generation_result s)
          (template_version s) (force_generation s).
Definition set_status (v : string) (s : AgentState) : AgentState :=
  mkState (messages s) v (template_params s) (generation_result s)
          (template_version s) (force_generation s).
Definition set_template_params (v : option (gmap string string))
    (s : AgentState) : AgentState :=
  mkState (messages s) (status s) v (generation_result s)
          (template_version s) (force_generation s).
Definition set_generation_result (v : option (gmap string string))
    (s : AgentState) : AgentState :=
  mkState (messages s) (status s) (template_params s) v
          (template_version s) (force_generation s).
Definition set_template_version (v : Z) (s : AgentState) : AgentState :=
  mkState (messages s) (status s) (template_params s) (generation_result s)
          v (force_generation s).
Definition set_force_generation (v : bool) (s : AgentState) : AgentState :=
  mkState (messages s) (status s) (template_params s) (generation_result s)
          (template_version s) v.

(** [state["messages"].append(m)] *)
Definition append_message (m : message) (s : AgentState) : AgentState :=
  set_messages (messages s ++ [m]) s.

(** [k in d] *)
Definition has_key (k : string) (d : gmap string string) : bool :=
  match d !! k with Some _ => true | None => false end.

(** ** The template catalogue ([app.py], [get_templates]) *)

Definition customizable_elements (id : Z) : list string :=
  if id =? 1 then
    ["image_url"; "property_price"; "modern_text"; "home_text";
     "for_sale_text"; "start_from_text"; "cta_text"; "website_text";
     "modern_color"; "home_color"; "for_sale_color"; "start_from_color";
     "price_color"; "cta_color"; "website_color"]
  else if id =? 2 then
    ["image_url"; "house_agent_text"; "tagline_text"; "info_header_text";
     "contact_info_text"; "text_1_color"; "text_1_copy_color";
     "text_1_copy_copy_color"; "text_1_copy_copy_copy_color"]
  else if id =? 3 then
    ["image_url"; "secondary_image_url1"; "secondary_image_url2";
     "secondary_image_url3"; "title_1_text"; "title_2_text";
     "cta_button_text"; "info_text"; "template3_website_text";
     "title_1_color"; "title_2_color"; "info_color";
     "template3_website_color"]
  else [].

Definition required_elements (id : Z) : list string :=
  if id =? 1 then ["image_url"; "property_price"]
  else if id =? 2 then ["image_url"]
  else if id =? 3 then ["image_url"]
  else [].

(** The parameters hold only keys of the template's schema. *)
Definition valid_for (id : Z) (params : gmap string string) : Prop :=
  ∀ k, is_Some (params !! k) → k ∈ customizable_elements id.

(** ** Turn Processor ([nodes.py], [user_turn]) *)

Definition is_human (m : message) : option string :=
  match m with HumanMessage c => Some c | _ => None end.

(** The contents of [human_messages]. *)
Definition human_messages (s : AgentState) : list string :=
  omap is_human (messages s).

(** [(?:modify|change|update|set|make)(?:\s+the)?\s+price\s+(?:to|as|be)?\s+\$?([\d,.]+)] *)
Definition re_direct_price : regex :=
  (price_verbs ⋅ Opt (Plus s_ ⋅ Lit "the") ⋅ Plus s_ ⋅ Lit "price" ⋅ Plus s_
   ⋅ Opt (lits ["to"; "as"; "be"]) ⋅ Plus s_ ⋅ Opt (Lit "$")
   ⋅ Grp (Plus price_chars))%re.

(** Lines 270-283: whether a direct price modification was seen, and the
    extracted parameters with its price. *)
Definition direct_price_modification (t : chars) (version : Z)
    (extracted_params : gmap string string)
  : res (bool * gmap string string) :=
  if version =? 1 then
    match re_search IGNORECASE re_direct_price t with
    | Some price_modification_pattern =>
        let price := remove_char "," (group 1 price_modification_pattern) in
        match int_float price with
        | Ok price_value =>
            Ok (true, <["property_price" := str (format_price price_value)]>
                        extracted_params)
        | Raise ValueError => Ok (true, extracted_params)
        | Raise e => Raise e
        end
    | None => Ok (false, extracted_params)
    end
  else Ok (false, extracted_params).

(** Lines 292-298. *)
Definition params_changed (previous_params extracted_params : gmap string string)
  : bool :=
  existsb
    (fun kv : string * string =>
       match previous_params !! kv.1 with
       | Some old => negb (String.eqb old kv.2)
       | None => false
       end)
    (map_to_list extracted_params).

Definition regeneration_keywords : list string :=
  ["regenerate"; "generate"; "create"; "update"; "change"; "modify";
   "make"; "yes"; "proceed"; "go ahead"; "do it"; "new"].

Definition url_keywords : list string :=
  ["url"; "link"; "generated"; "show me"; "view"; "preview"; "see";
   "poster"; "provide"].

(** [any(keyword in content.lower() for keyword in keywords)] *)
Definition any_keyword (keywords : list string) (t : chars) : bool :=
  existsb (fun keyword => contains (chars_of keyword) (lower t)) keywords.

Definition is_regeneration_request (t : chars) : bool :=
  any_keyword regeneration_keywords t.
Definition is_url_request (t : chars) : bool :=
  any_keyword url_keywords t.

(** Lines 253-258. *)
Definition switch_template (template_preference : Z) (state : AgentState)
  : AgentState :=
  if negb (template_preference =? template_version state)
  then set_status "COLLECTING_INFO"
         (set_template_params (Some ∅)
            (set_template_version template_preference state))
  else state.

(** Lines 286-289: [update] overwrites the old values. *)
Definition merge_params (extracted_params : gmap string string)
    (state : AgentState) : AgentState :=
  match template_params state with
  | None => set_template_params (Some extracted_params) state
  | Some old => set_template_params (Some (extracted_params ∪ old)) state
  end.

Definition params_of (state : AgentState) : gmap string string :=
  default ∅ (template_params state).

(** The condition of lines 313-315. *)
Definition force_condition (is_regen is_url changed price_modification : bool)
    (st : string) : bool :=
  ((is_regen || is_url) && changed)
  || (changed && (String.eqb st "READY_TO_GENERATE"
                  || String.eqb st "TEMPLATE_GENERATED"))
  || price_modification.

(** Lines 313-319. *)
Definition force_regeneration (cond : bool) (state : AgentState) : AgentState :=
  if cond
  then set_generation_result None (set_force_generation true state)
  else state.

(** Lines 322-343. *)
Definition update_status (is_regen price_modification : bool)
    (state : AgentState) : AgentState :=
  let params := params_of state in
  if template_version state =? 1 then
    if has_key "image_url" params && has_key "property_price" params then
      let state := set_status "READY_TO_GENERATE" state in
      if is_regen || price_modification
      then set_force_generation true state else state
    else state
  else if template_version state =? 2 then
    if has_key "image_url" params then
      let state := set_status "READY_TO_GENERATE" state in
      if is_regen then set_force_generation true state else state
    else state
  else if template_version state =? 3 then
    if has_key "image_url" params then
      let state := set_status "READY_TO_GENERATE" state in
      if is_regen then set_force_generation true state else state
    else state
  else
    if has_key "image_url" params
    then set_status "READY_TO_GENERATE" state else state.

Definition user_turn (state : AgentState) : res AgentState :=
  match last (human_messages state) with
  | None => Ok state
  | Some content =>
      let t := chars_of content in
      let template_preference := extract_template_preference content in
      let state := switch_template template_preference state in
      let previous_params := params_of state in
      do extracted_params <-
        extract_template_params content (template_version state);
      do pm <- direct_price_modification t (template_version state)
                 extracted_params;
      let '(price_modification, extracted_params) := pm in
      let state := merge_params extracted_params state in
      let changed := params_changed previous_params extracted_params in
      let state :=
        force_regeneration
          (force_condition (is_regeneration_request t) (is_url_request t)
             changed price_modification (status state))
          state in
      Ok (update_status (is_regeneration_request t) price_modification state)
  end.

(** ** Requirement Checker ([nodes.py], [check_requirements]) *)

Definition required_params (version : Z) : list string :=
  if version =? 1 then ["image_url"; "property_price"]
  else if version =? 2 then ["image_url"]
  else if version =? 3 then ["image_url"]
  else ["image_url"].

Definition check_requirements (state : AgentState) : AgentState :=
  match template_params state with
  | None => set_status "COLLECTING_INFO" state
  | Some params =>
      if force_generation state then set_status "READY_TO_GENERATE" state
      else
        let missing_params :=
          List.filter (fun param => negb (has_key param params))
                 (required_params (template_version state)) in
        match missing_params with
        | _ :: _ => set_status "COLLECTING_INFO" state
        | [] => set_status "READY_TO_GENERATE" state
        end
  end.

(** ** Template Generator, reply and graph *)

Section Nodes.

(** [generate_real_estate_poster.invoke]: the template number, the
    parameters, and either the result or the text of the exception. *)
Variable invoke : Z → gmap string string → string + gmap string string.

(** The reply of the language model. *)
Variable llm : AgentState → string.

Definition missing_url_note : message :=
  SystemMessage "Error: Missing image URL. Please provide a URL to an image before generating the template.".

Definition url_required_note : message :=
  SystemMessage "Error: An image URL is required. Please provide a URL to an image of the property.".

Definition generic_error_note (error_message : string) : message :=
  SystemMessage ("Error generating template: " +:+ error_message).

(** The note of lines 542-551 for a failed call. *)
Definition error_note (error_message : string) : message :=
  if contains (chars_of "validation error") (chars_of error_message)
     && contains (chars_of "image_url") (chars_of error_message)
  then url_required_note
  else generic_error_note error_message.

Definition generate_template (state : AgentState) : res AgentState :=
  match template_params state with
  | None => Raise AttributeError
  | Some template_params =>
      if negb (has_key "image_url" template_params)
         || String.eqb (default "" (template_params !! "image_url")) ""
      then
        Ok (set_status "COLLECTING_INFO" (append_message missing_url_note state))
      else
        match invoke (template_version state) template_params with
        | inr result =>
            Ok (set_status "TEMPLATE_GENERATED"
                  (set_generation_result (Some result) state))
        | inl error_message =>
            Ok (set_status "COLLECTING_INFO"
                  (append_message (error_note error_message) state))
        end
  end.

Definition ai_turn (state : AgentState) : AgentState :=
  append_message (AIMessage (llm state)) state.

(** The conditional edge after [check_requirements]. *)
Definition wants_generation (state : AgentState) : bool :=
  String.eqb (status state) "READY_TO_GENERATE" || force_generation state.

(** One run of the compiled graph: [user_turn], [check_requirements],
    [generate_template] when routed there, [ai_turn]. *)
Definition run_graph (state : AgentState) : res AgentState :=
  do state <- user_turn state;
  let state := check_requirements state in
  do state <- (if wants_generation state then generate_template state
               else Ok state);
  Ok (ai_turn state).

(** One turn-processing cycle: the user message joins the history and
    the graph runs. *)
Definition turn (user_prompt : string) (state : AgentState) : res AgentState :=
  run_graph (append_message (HumanMessage user_prompt) state).

End Nodes.

(** Several cycles in a row, one user message each. *)
Fixpoint turns (invoke : Z → gmap string string → string + gmap string string)
    (llm : AgentState → string) (prompts : list string) (state : AgentState)
  : res AgentState :=
  match prompts with
  | [] => Ok state
  | p :: rest =>
      do state <- turn invoke llm p state;
      turns invoke llm rest state
  end.

(** ** Vocabulary of the properties *)

(** What a pattern matches, without reference to the order of the
    search: [Matches ic r w g] when [r] covers exactly the text [w] and
    its groups capture [g]. *)
Definition same_char (ic : bool) (c x : ascii) : bool :=
  if ic then eqc (lower_char c) (lower_char x) else eqc c x.

Inductive Matches (ic : bool) : regex → chars → list chars → Prop :=
| MLit l w :
    Forall2 (fun c x => same_char ic c x = true) (chars_of l) w →
    Matches ic (Lit l) w []
| MOne a x : atom_ok ic a x = true → Matches ic (One a) [x] []
| MStar a w : forallb (atom_ok ic a) w = true → Matches ic (Star a) w []
| MPlus a w :
    w ≠ [] → forallb (atom_ok ic a) w = true → Matches ic (Plus a) w []
| MOptSome r w g : Matches ic r w g → Matches ic (Opt r) w g
| MOptNone r : Matches ic (Opt r) [] []
| MAltL r1 r2 w g : Matches ic r1 w g → Matches ic (Alt r1 r2) w g
| MAltR r1 r2 w g : Matches ic r2 w g → Matches ic (Alt r1 r2) w g
| MSeq r1 r2 w1 g1 w2 g2 :
    Matches ic r1 w1 g1 → Matches ic r2 w2 g2 →
    Matches ic (Seq r1 r2) (w1 ++ w2) (g1 ++ g2)
| MGrp r w g : Matches ic r w g → Matches ic (Grp r) w (w :: g).

(** [r] matches somewhere in [s]. *)
Definition occurs (ic : bool) (r : regex) (s : chars) : Prop :=
  ∃ pre w g post, s = pre ++ w ++ post ∧ Matches ic r w g.





(** The first of the image rules that applies. *)
Definition first_image_rule (t : chars) : option string :=
  match re_search IGNORECASE re_image_url t with
  | Some m => Some (str (group 0 m))
  | None =>
      match re_search IGNORECASE re_www_url t with
      | Some m => Some ("https://" +:+ str (group 0 m))
      | None =>
          match re_search IGNORECASE re_general_url t with
          | Some m => Some ("https://" +:+ str (group 0 m))
          | None => None
          end
      end
  end.




(** Whether every required parameter of the active template is present. *)
Definition complete (s : AgentState) : bool :=
  forallb (fun k => has_key k (params_of s))
          (required_elements (template_version s)).

(** The keys, other than [image_url], that the extraction for template
    [v] can write. *)
Definition later_keys (v : Z) : list string :=
  if v =? 3 then "cta_color" :: tail (customizable_elements 3)
  else tail (customizable_elements v).





(** Concrete collaborators for the examples: a rendering service that
    always succeeds, one that always fails, and a fixed reply. *)
Definition render_ok : Z → gmap string string → string + gmap string string :=
  fun _ _ => inr {[ "url" := "https://img.example/poster.png" ]}.
Definition render_fails : Z → gmap string string → string + gmap string string :=
  fun _ _ => inl "service unavailable".
Definition reply_ok : AgentState → string := fun _ => "ok".

(** A session of template 1 whose poster has been generated. *)
Definition generated_session : AgentState :=
  {| messages := [HumanMessage "yes"];
     status := "TEMPLATE_GENERATED";
     template_params :=
       Some (<["image_url" := "https://www.x.com/a.jpg"]>
               (<["property_price" := "$5"]> ∅));
     generation_result := Some {[ "url" := "https://img.example/poster.png" ]};
     template_version := 1;
     force_generation := false |}.

(** A session right after a switch of template: no parameters yet, and
    the flag set ([app.py], [chat_endpoint]). *)
Definition switched_session : AgentState :=
  {| messages := [];
     status := "COLLECTING_INFO";
     template_params := Some ∅;
     generation_result := None;
     template_version := 2;
     force_generation := true |}.

(** A dollar sign and a number of 309 digits. *)
Definition huge_price : string :=
  str ("$"%char :: "2"%char :: repeat "0"%char 308).


(** What holds of the parameters of a session at all times: the template
    is one of the three, a stored image URL begins with [http] in some
    case, and a stored price begins with the dollar sign. *)
Definition well_formed (st : AgentState) : Prop :=
  1 ≤ template_version st ≤ 3
  ∧ (∀ u, params_of st !! "image_url" = Some u →
          starts_with (chars_of "http") (lower (chars_of u)) = true)
  ∧ (∀ v, params_of st !! "property_price" = Some v →
          starts_with (chars_of "$") (chars_of v) = true).

(** A character that is a letter, in either case. *)
Definition is_letter (x : ascii) : bool := is_lower (lower_char x).

(** A pattern that only matches texts with a letter in them. *)
Fixpoint needs_letter (r : regex) : bool :=
  match r with
  | Lit l => existsb is_letter (chars_of l)
  | One _ | Star _ | Plus _ | Opt _ => false
  | Alt r1 r2 => needs_letter r1 && needs_letter r2
  | Seq r1 r2 => needs_letter r1 || needs_letter r2
  | Grp r1 => needs_letter r1
  end.

(** ** The renderer ([utils/template_renderer.py]) and the poster tool
    ([tools.py])

    A layer map is a dictionary from layer names to dictionaries of
    fields.  The environment variables the renderer reads are a record;
    the HTTP request is a parameter, and the body of a response with
    status 200 is taken to be a JSON object.

    The exceptions: the [TypeError] of the call of line 83, the
    [KeyError] of an assignment to a layer that is not there, the
    [ValueError] of line 108 ([MissingCredentials]), the [Exception] of
    line 161 with the status code and the text of the response
    ([RequestFailed]), and whatever [requests.post] raises
    ([RequestError]). *)

Inductive render_exn : Type :=
| TypeError
| KeyError (key : string)
| MissingCredentials
| RequestFailed (status_code : Z) (details : string)
| RequestError (error_message : string).

Inductive rres (A : Type) : Type :=
| ROk (a : A)
| RRaise (e : render_exn).
Arguments ROk {A} a.
Arguments RRaise {A} e.

Definition rbind {A B : Type} (x : rres A) (f : A → rres B) : rres B :=
  match x with
  | ROk a => f a
  | RRaise e => RRaise e
  end.

Notation "'get' x <- e ; k" := (rbind e (fun x => k))
  (at level 10, x name, e at level 100, k at level 200).

Abbreviation layers := (gmap string (gmap string string)).

Definition fields (l : list (string * string)) : gmap string string :=
  list_to_map l.

(** [get_template_structure], lines 42-83.  The last branch calls the
    method with a keyword argument it does not take. *)
Definition get_template_structure (template_version : Z) : rres layers :=
  if template_version =? 1 then
    ROk (list_to_map
           [("image-1", fields [("image_url", "")]);
            ("bg-website", fields []);
            ("website", fields [("text", "www.house4you.com"); ("color", "#FFFFFF")]);
            ("shape-bg", fields []);
            ("modern", fields [("text", "MODERN"); ("color", "rgb(171, 102, 49)")]);
            ("home", fields [("text", "HOME"); ("color", "rgb(59, 59, 59)")]);
            ("for sale", fields [("text", "FOR SALE"); ("color", "rgb(59, 59, 59)")]);
            ("start from", fields [("text", "START FROM"); ("color", "rgb(59, 59, 59)")]);
            ("price", fields [("text", "$0"); ("color", "rgb(59, 59, 59)")]);
            ("button-cta", fields [("text", "BUY NOW"); ("color", "rgb(228, 228, 222)")])])
  else if template_version =? 2 then
    ROk (list_to_map
           [("image-1", fields [("image_url", "")]);
            ("shape-1", fields []);
            ("shape-2", fields []);
            ("text-1", fields [("text", "HOUSE AGENT"); ("color", "#FFFFFF")]);
            ("text-1-copy", fields [("text", "modern | beautiful | technology"); ("color", "#FFFFFF")]);
            ("text-1-copy-copy", fields [("text", "FOR MORE INFORMATION"); ("color", "rgb(105, 99, 65)")]);
            ("shape-3", fields []);
            ("text-1-copy-copy-copy", fields [("text", "+123 456 7890 | www.lovehouse.com"); ("color", "rgb(105, 99, 65)")])])
  else if template_version =? 3 then
    ROk (list_to_map
           [("image-top", fields [("image_url", "")]);
            ("photo-1", fields [("image_url", "")]);
            ("photo-2", fields [("image_url", "")]);
            ("photo-3", fields [("image_url", "")]);
            ("shape-1", fields []);
            ("title-1", fields [("text", "THE BEST HOME"); ("color", "rgb(239, 233, 226)")]);
            ("title-2", fields [("text", "FOR SALE"); ("color", "rgb(239, 233, 226)")]);
            ("button-cta", fields [("text", "I WANT"); ("color", "rgb(255, 255, 255)")]);
            ("info", fields [("text", "For more info, contact us"); ("color", "rgb(126, 103, 76)")]);
            ("website", fields [("text", "www.housesforyou.com"); ("color", "rgb(0, 0, 0)")])])
  else RRaise TypeError.

(** [os.getenv] of the four variables the renderer reads. *)
Record credentials : Type := mkCredentials {
  api_key : option string;
  template_id1 : option string;
  template_id2 : option string;
  template_id3 : option string
}.

(** [get_template_id], lines 30-40. *)
Definition get_template_id (env : credentials) (template_version : Z)
  : option string :=
  if template_version =? 1 then template_id1 env
  else if template_version =? 2 then template_id2 env
  else if template_version =? 3 then template_id3 env
  else template_id1 env.

(** The truth value of an optional string: [None] and the empty string
    are false. *)
Definition truthy (a : option string) : option string :=
  match a with
  | Some v => if String.eqb v "" then None else Some v
  | None => None
  end.

(** [a or b] *)
Definition or_else (a : option string) (b : string) : string :=
  match truthy a with Some v => v | None => b end.

(** [template_data[layer][field] = value] *)
Definition set_field (layer field value : string) (template_data : layers)
  : rres layers :=
  match template_data !! layer with
  | Some fs => ROk (<[layer := <[field := value]> fs]> template_data)
  | None => RRaise (KeyError layer)
  end.

(** [if arg: template_data[layer][field] = arg] *)
Definition set_opt (arg : option string) (layer field : string)
    (template_data : layers) : rres layers :=
  match truthy arg with
  | Some v => set_field layer field v template_data
  | None => ROk template_data
  end.

(** [template_data.get(layer, {}).get(field, default)] *)
Definition get_field (template_data : layers) (layer field default : string)
  : string :=
  match template_data !! layer with
  | Some fs => match fs !! field with Some v => v | None => default end
  | None => default
  end.

(** The values of a result of the rendering service. *)
Inductive value : Type :=
| VStr (s : string)
| VInt (z : Z)
| VBool (b : bool).

(** What [requests.post] gives: a response with its status code, text
    and JSON body, or an exception. *)
Inductive http_outcome : Type :=
| Response (status_code : Z) (text : string) (json : gmap string value)
| Failure (message : string).

(** [tools.py], lines 62-144: the layer map of the poster.  The optional
    parameters of the tool are looked up by name in [args]; a parameter
    that was not given is absent. *)
Definition build_layers (template_version : Z) (image_url : string)
    (args : gmap string string) (template_data : layers) : rres layers :=
  if template_version =? 1 then
    get d <- set_field "image-1" "image_url" image_url template_data;
    get d <- set_opt (args !! "property_price") "price" "text" d;
    get d <- set_opt (args !! "modern_text") "modern" "text" d;
    get d <- set_opt (args !! "home_text") "home" "text" d;
    get d <- set_opt (args !! "for_sale_text") "for sale" "text" d;
    get d <- set_opt (args !! "start_from_text") "start from" "text" d;
    get d <- set_opt (args !! "cta_text") "button-cta" "text" d;
    get d <- set_opt (args !! "website_text") "website" "text" d;
    get d <- set_opt (args !! "modern_color") "modern" "color" d;
    get d <- set_opt (args !! "home_color") "home" "color" d;
    get d <- set_opt (args !! "for_sale_color") "for sale" "color" d;
    get d <- set_opt (args !! "start_from_color") "start from" "color" d;
    get d <- set_opt (args !! "price_color") "price" "color" d;
    get d <- set_opt (args !! "cta_color") "button-cta" "color" d;
    get d <- set_opt (args !! "website_color") "website" "color" d;
    ROk d
  else if template_version =? 2 then
    get d <- set_field "image-1" "image_url" image_url template_data;
    get d <- set_opt (args !! "house_agent_text") "text-1" "text" d;
    get d <- set_opt (args !! "tagline_text") "text-1-copy" "text" d;
    get d <- set_opt (args !! "info_header_text") "text-1-copy-copy" "text" d;
    get d <- set_opt (args !! "contact_info_text") "text-1-copy-copy-copy" "text" d;
    get d <- set_opt (args !! "text_1_color") "text-1" "color" d;
    get d <- set_opt (args !! "text_1_copy_color") "text-1-copy" "color" d;
    get d <- set_opt (args !! "text_1_copy_copy_color") "text-1-copy-copy" "color" d;
    get d <- set_opt (args !! "text_1_copy_copy_copy_color") "text-1-copy-copy-copy" "color" d;
    ROk d
  else if template_version =? 3 then
    get d <- set_field "image-top" "image_url" image_url template_data;
    get d <- set_field "photo-1" "image_url"
               (or_else (args !! "secondary_image_url1") image_url) d;
    get d <- set_field "photo-2" "image_url"
               (or_else (args !! "secondary_image_url2") image_url) d;
    get d <- set_field "photo-3" "image_url"
               (or_else (args !! "secondary_image_url3") image_url) d;
    get d <- set_opt (args !! "title_1_text") "title-1" "text" d;
    get d <- set_opt (args !! "title_2_text") "title-2" "text" d;
    get d <- set_opt (args !! "cta_button_text") "button-cta" "text" d;
    get d <- set_opt (args !! "info_text") "info" "text" d;
    get d <- set_opt (args !! "template3_website_text") "website" "text" d;
    get d <- set_opt (args !! "title_1_color") "title-1" "color" d;
    get d <- set_opt (args !! "title_2_color") "title-2" "color" d;
    get d <- set_opt (args !! "info_color") "info" "color" d;
    get d <- set_opt (args !! "template3_website_color") "website" "color" d;
    ROk d
  else ROk template_data.

Section Renderer.

Variable env : credentials.

(** [requests.post(self.url, json={'template': id, 'layers': data},
    headers=self.headers)]: the API key of the headers, the template
    identifier and the layers. *)
Variable post : string → string → layers → http_outcome.

Definition placeholder_key : string := "your_templated_api_key_here".
Definition placeholder_id : string := "your_template_id_here".

(** [render_template], lines 97-164. *)
Definition render_template (template_version : Z) (template_data : layers)
  : rres (gmap string value) :=
  match truthy (api_key env), truthy (get_template_id env template_version) with
  | Some key, Some id =>
      if String.eqb key placeholder_key || String.eqb id placeholder_id then
        let mock_image_url := get_field template_data "image-1" "image_url" "" in
        let mock_image_url :=
          if String.eqb mock_image_url "" && (template_version =? 3)
          then get_field template_data "image-top" "image_url" ""
          else mock_image_url in
        ROk (list_to_map
               [("url", VStr "https://example.com/poster-preview.jpg");
                ("status", VStr "success");
                ("template_id", VStr id);
                ("template_version", VInt template_version);
                ("original_image", VStr mock_image_url);
                ("mock_generation", VBool true)])
      else
        match post key id template_data with
        | Response status_code text json =>
            if status_code =? 200 then ROk json
            else RRaise (RequestFailed status_code text)
        | Failure message => RRaise (RequestError message)
        end
  | _, _ => RRaise MissingCredentials
  end.

(** [generate_real_estate_poster], [tools.py] lines 8-157, called as a
    plain function. *)
Definition generate_real_estate_poster (template_version : Z)
    (image_url : string) (args : gmap string string)
  : rres (gmap string value) :=
  get template_data <- get_template_structure template_version;
  get template_data <- build_layers template_version image_url args template_data;
  render_template template_version template_data.

End Renderer.

(** The field [field] of the layer [layer]. *)
Definition slot (d : layers) (layer field : string) : option string :=
  match d !! layer with
  | Some fs => fs !! field
  | None => None
  end.

(** The writes of [build_layers] in the order of the program: layer,
    field, and the value written, if any. *)
Definition writes (template_version : Z) (image_url : string)
    (args : gmap string string) : list (string * string * option string) :=
  if template_version =? 1 then
    [("image-1", "image_url", Some image_url);
     ("price", "text", truthy (args !! "property_price"));
     ("modern", "text", truthy (args !! "modern_text"));
     ("home", "text", truthy (args !! "home_text"));
     ("for sale", "text", truthy (args !! "for_sale_text"));
     ("start from", "text", truthy (args !! "start_from_text"));
     ("button-cta", "text", truthy (args !! "cta_text"));
     ("website", "text", truthy (args !! "website_text"));
     ("modern", "color", truthy (args !! "modern_color"));
     ("home", "color", truthy (args !! "home_color"));
     ("for sale", "color", truthy (args !! "for_sale_color"));
     ("start from", "color", truthy (args !! "start_from_color"));
     ("price", "color", truthy (args !! "price_color"));
     ("button-cta", "color", truthy (args !! "cta_color"));
     ("website", "color", truthy (args !! "website_color"))]
  else if template_version =? 2 then
    [("image-1", "image_url", Some image_url);
     ("text-1", "text", truthy (args !! "house_agent_text"));
     ("text-1-copy", "text", truthy (args !! "tagline_text"));
     ("text-1-copy-copy", "text", truthy (args !! "info_header_text"));
     ("text-1-copy-copy-copy", "text", truthy (args !! "contact_info_text"));
     ("text-1", "color", truthy (args !! "text_1_color"));
     ("text-1-copy", "color", truthy (args !! "text_1_copy_color"));
     ("text-1-copy-copy", "color", truthy (args !! "text_1_copy_copy_color"));
     ("text-1-copy-copy-copy", "color", truthy (args !! "text_1_copy_copy_copy_color"))]
  else if template_version =? 3 then
    [("image-top", "image_url", Some image_url);
     ("photo-1", "image_url", Some (or_else (args !! "secondary_image_url1") image_url));
     ("photo-2", "image_url", Some (or_else (args !! "secondary_image_url2") image_url));
     ("photo-3", "image_url", Some (or_else (args !! "secondary_image_url3") image_url));
     ("title-1", "text", truthy (args !! "title_1_text"));
     ("title-2", "text", truthy (args !! "title_2_text"));
     ("button-cta", "text", truthy (args !! "cta_button_text"));
     ("info", "text", truthy (args !! "info_text"));
     ("website", "text", truthy (args !! "template3_website_text"));
     ("title-1", "color", truthy (args !! "title_1_color"));
     ("title-2", "color", truthy (args !! "title_2_color"));
     ("info", "color", truthy (args !! "info_color"));
     ("website", "color", truthy (args !! "template3_website_color"))]
  else [].

Definition write (w : string * string * option string) (d : layers)
  : rres layers :=
  match w.2 with
  | Some v => set_field w.1.1 w.1.2 v d
  | None => ROk d
  end.

Fixpoint run_writes (ws : list (string * string * option string))
    (d : layers) : rres layers :=
  match ws with
  | [] => ROk d
  | w :: ws' => get d' <- write w d; run_writes ws' d'
  end.

(** The last value a list of writes leaves in a slot. *)
Fixpoint last_write (ws : list (string * string * option string))
    (layer field : string) : option string :=
  match ws with
  | [] => None
  | w :: ws' =>
      match last_write ws' layer field with
      | Some v => Some v
      | None =>
          if String.eqb w.1.1 layer && String.eqb w.1.2 field then w.2
          else None
      end
  end.

(** The slot each element of the catalogue of [app.py] stands for. *)
Definition param_slots (template_version : Z)
  : list (string * (string * string)) :=
  if template_version =? 1 then
    [("property_price", ("price", "text"));
     ("modern_text", ("modern", "text")); ("home_text", ("home", "text"));
     ("for_sale_text", ("for sale", "text"));
     ("start_from_text", ("start from", "text"));
     ("cta_text", ("button-cta", "text"));
     ("website_text", ("website", "text"));
     ("modern_color", ("modern", "color")); ("home_color", ("home", "color"));
     ("for_sale_color", ("for sale", "color"));
     ("start_from_color", ("start from", "color"));
     ("price_color", ("price", "color"));
     ("cta_color", ("button-cta", "color"));
     ("website_color", ("website", "color"))]
  else if template_version =? 2 then
    [("house_agent_text", ("text-1", "text"));
     ("tagline_text", ("text-1-copy", "text"));
     ("info_header_text", ("text-1-copy-copy", "text"));
     ("contact_info_text", ("text-1-copy-copy-copy", "text"));
     ("text_1_color", ("text-1", "color"));
     ("text_1_copy_color", ("text-1-copy", "color"));
     ("text_1_copy_copy_color", ("text-1-copy-copy", "color"));
     ("text_1_copy_copy_copy_color", ("text-1-copy-copy-copy", "color"))]
  else if template_version =? 3 then
    [("secondary_image_url1", ("photo-1", "image_url"));
     ("secondary_image_url2", ("photo-2", "image_url"));
     ("secondary_image_url3", ("photo-3", "image_url"));
     ("title_1_text", ("title-1", "text"));
     ("title_2_text", ("title-2", "text"));
     ("cta_button_text", ("button-cta", "text"));
     ("info_text", ("info", "text"));
     ("template3_website_text", ("website", "text"));
     ("title_1_color", ("title-1", "color"));
     ("title_2_color", ("title-2", "color"));
     ("info_color", ("info", "color"));
     ("template3_website_color", ("website", "color"))]
  else [].

(** Two layer maps with the same layers and, in each layer, the same
    fields. *)
Definition same_shape (D d : layers) : Prop :=
  (∀ L, is_Some (d !! L) ↔ is_Some (D !! L))
  ∧ (∀ L F, is_Some (slot d L F) ↔ is_Some (slot D L F)).


Definition placeholder_env : credentials :=
  mkCredentials (Some placeholder_key) (Some "t1") (Some "t2") (Some "t3").

Definition no_service (key id : string) (d : layers) : http_outcome :=
  Failure "unreachable".

(** The optional parameters of [generate_real_estate_poster], lines
    13-48. *)
Definition optional_parameters : list string :=
  ["property_price"; "modern_text"; "home_text"; "for_sale_text";
   "start_from_text"; "cta_text"; "website_text"; "modern_color";
   "home_color"; "for_sale_color"; "start_from_color"; "price_color";
   "cta_color"; "website_color";
   "house_agent_text"; "tagline_text"; "info_header_text";
   "contact_info_text"; "text_1_color"; "text_1_copy_color";
   "text_1_copy_copy_color"; "text_1_copy_copy_copy_color";
   "secondary_image_url1"; "secondary_image_url2"; "secondary_image_url3";
   "title_1_text"; "title_2_text"; "cta_button_text"; "info_text";
   "template3_website_text"; "title_1_color"; "title_2_color"; "info_color";
   "template3_website_color"].

(** ** The chat endpoint ([app.py], [chat_endpoint], lines 117-237)

    The request and the response are records; the table of the sessions
    is a dictionary that the endpoint takes and returns.  The welcome
    text of [create_template_introduction] and the identifier that
    [uuid.uuid4] draws are parameters.  The values of a result of the
    rendering service are strings here, and such a value counts as true
    when it is not empty. *)

Record ChatRequest : Type := mkChatRequest {
  session_id : option string;
  user_prompt : string;
  (** the field [template_version] of the request *)
  requested_version : option Z
}.

Record ChatResponse : Type := mkChatResponse {
  response_session_id : string;
  response : string;
  response_status : string;
  response_template_version : Z
}.

Inductive chat_exn : Type :=
| NodeError (e : pyexn)
| IndexError.

(** A response, with the table of the sessions afterwards, or the
    [HTTPException] with status 500 of line 237. *)
Inductive chat_result : Type :=
| Reply (r : ChatResponse) (sessions : gmap string AgentState)
| HTTP500 (e : chat_exn).

Definition message_content (m : message) : string :=
  match m with
  | SystemMessage c | HumanMessage c | AIMessage c => c
  end.

(** [str(n)] *)
Definition str_int (n : Z) : string :=
  if n <? 0 then "-" +:+ str (decimal (- n)) else str (decimal n).

Definition generation_keywords : list string :=
  ["generate"; "create"; "make"; "produce"; "build"; "design"].

(** [state["generation_result"]["url"]] when
    [state["generation_result"] and "url" in state["generation_result"]] *)
Definition result_url (state : AgentState) : option string :=
  match generation_result state with
  | Some r => r !! "url"
  | None => None
  end.

(** Lines 188-189 and 208-209. *)
Definition mock_note (state : AgentState) : string :=
  match generation_result state with
  | Some r =>
      match truthy (r !! "mock_generation") with
      | Some _ => " (This is a preview since you're using development API keys)"
      | None => ""
      end
  | None => ""
  end.

(** Line 136. *)
Definition requested_template (request : ChatRequest) : Z :=
  match requested_version request with
  | Some v =>
      if v =? 0 then extract_template_preference (user_prompt request) else v
  | None => extract_template_preference (user_prompt request)
  end.

(** Lines 139-163: the switch the request asks for, and whether it took
    place. *)
Definition switch_requested (requested : Z) (state : AgentState)
  : AgentState * bool :=
  if negb (requested =? 0) && (1 <=? requested) && (requested <=? 3)
     && negb (template_version state =? requested)
  then
    let image_url :=
      match template_params state with
      | Some p => p !! "image_url"
      | None => None
      end in
    let state := set_template_version requested state in
    let state :=
      set_template_params
        (Some (match truthy image_url with
               | Some u => {[ "image_url" := u ]}
               | None => ∅
               end)) state in
    let state := set_status "COLLECTING_INFO" state in
    let state := set_generation_result None state in
    let state := set_force_generation true state in
    (append_message
       (SystemMessage ("User has switched to Template " +:+ str_int requested +:+ "."))
       state, true)
  else (state, false).

Section Chat.

Variable invoke : Z → gmap string string → string + gmap string string.
Variable llm : AgentState → string.

(** [str(uuid.uuid4())] *)
Variable uuid4 : string.

(** [create_template_introduction()] *)
Variable welcome_message : string.

(** Lines 126-130. *)
Definition new_session : AgentState :=
  append_message
    (SystemMessage
       ("Start the conversation by introducing yourself and providing the following template information: "
        +:+ welcome_message))
    get_initial_state.

(** Lines 177-203: the endpoint runs the Template Generator itself.  The
    only exception of [generate_template] is the one of its line 503. *)
Definition explicit_generation (state : AgentState) : AgentState :=
  let state :=
    append_message
      (SystemMessage
         ("The user has requested template generation using Template "
          +:+ str_int (template_version state) +:+ "."))
      state in
  match generate_template invoke state with
  | Ok state =>
      match result_url state with
      | Some poster_url =>
          let state := set_status "TEMPLATE_GENERATED" state in
          append_message
            (SystemMessage
               ("Template " +:+ str_int (template_version state)
                +:+ " generated successfully. URL: " +:+ poster_url
                +:+ mock_note state))
            state
      | None =>
          append_message
            (SystemMessage
               ("Failed to generate template "
                +:+ str_int (template_version state)
                +:+ ": No URL returned from generation service."))
            state
      end
  | Raise _ =>
      append_message
        (SystemMessage
           "Error during template generation: 'NoneType' object has no attribute 'copy'")
        state
  end.

(** Lines 134-215: the state the endpoint hands to the graph. *)
Definition prepare (request : ChatRequest) (state : AgentState) : AgentState :=
  let '(state, template_switched) :=
    switch_requested (requested_template request) state in
  let state := append_message (HumanMessage (user_prompt request)) state in
  let t := chars_of (user_prompt request) in
  let is_generation_request := any_keyword generation_keywords t in
  let is_url_request := any_keyword url_keywords t in
  if ((is_generation_request || is_url_request)
      && String.eqb (status state) "READY_TO_GENERATE")
     || template_switched
  then explicit_generation state
  else if is_url_request then
    match result_url state with
    | Some poster_url =>
        append_message
          (SystemMessage
             ("The user is asking for the poster URL for Template "
              +:+ str_int (template_version state) +:+ ". Here it is: "
              +:+ poster_url +:+ mock_note state))
          state
    | None => state
    end
  else state.

(** Lines 120-132: the session of the request, its identifier, and the
    table with it. *)
Definition open_session (request : ChatRequest)
    (sessions : gmap string AgentState)
  : string * AgentState * gmap string AgentState :=
  let existing :=
    match session_id request with
    | Some id =>
        match sessions !! id with
        | Some state => Some (id, state)
        | None => None
        end
    | None => None
    end in
  match existing with
  | Some (id, state) => (id, state, sessions)
  | None =>
      let id := match truthy (session_id request) with
                | Some id => id
                | None => uuid4
                end in
      (id, new_session, <[id := new_session]> sessions)
  end.

Definition chat_endpoint (request : ChatRequest)
    (sessions : gmap string AgentState) : chat_result :=
  let '(id, state, sessions) := open_session request sessions in
  match run_graph invoke llm (prepare request state) with
  | Ok new_state =>
      match last (messages new_state) with
      | Some ai_message =>
          Reply (mkChatResponse id (message_content ai_message)
                   (status new_state) (template_version new_state))
                (<[id := new_state]> sessions)
      | None => HTTP500 IndexError
      end
  | Raise e => HTTP500 (NodeError e)
  end.

End Chat.

(** Sessions and parameters of the examples. *)

(** Sessions for the examples of the further properties: a listing
    with its image and price, and a session in which [content] is the
    only message so far. *)
Definition listing : gmap string string :=
  <["image_url" := "https://www.x.com/a.jpg"]> {[ "property_price" := "$5" ]}.

Definition session (content status : string) (params : gmap string string)
    (version : Z) : AgentState :=
  mkState [HumanMessage content] status (Some params) None version false.

(** * Properties *)

(** ** The state record *)

Lemma Ok_inj {A : Type} (a b : A) : Ok a = Ok b → a = b.
Proof. by intros [= ->]. Qed.

Lemma has_key_is_Some (k : string) (d : gmap string string) :
  has_key k d = true ↔ is_Some (d !! k).
Proof.
  unfold has_key. destruct (d !! k) eqn:E; split; intros H;
    first [done | eauto | by destruct H].
Qed.

(** ** Turn Processor without a user message *)

Lemma human_messages_none (l : list message) :
  (∀ c, HumanMessage c ∉ l) → omap is_human l = [].
Proof.
  induction l as [|m l IH]; intros H; [reflexivity|].
  destruct m as [c|c|c]; simpl.
  - apply IH. intros c' Hc. apply (H c'). by right.
  - exfalso. apply (H c). by left.
  - apply IH. intros c' Hc. apply (H c'). by right.
Qed.

(** C10. A history without any user message makes the Turn Processor
    return the state it was given, every field included. *)
Theorem user_turn_without_user_message (st : AgentState) :
  (∀ c, HumanMessage c ∉ messages st) → user_turn st = Ok st.
Proof.
  intros H. unfold user_turn, human_messages.
  rewrite (human_messages_none _ H). reflexivity.
Qed.

Lemma user_turn_without_user_message_witness :
  user_turn get_initial_state = Ok get_initial_state.
Proof.
  apply user_turn_without_user_message.
  intros c Hc. simpl in Hc. apply list_elem_of_singleton in Hc. discriminate Hc.
Defined.

(** ** Requirement Checker *)

Lemma required_params_catalogue (v : Z) :
  1 ≤ v ≤ 3 → required_params v = required_elements v.
Proof.
  intros Hv. assert (v = 1 ∨ v = 2 ∨ v = 3) as [->|[->| ->]] by lia; reflexivity.
Qed.

Lemma missing_none (params : gmap string string) (l : list string) :
  List.filter (fun param => negb (has_key param params)) l = []
  ↔ ∀ k, k ∈ l → is_Some (params !! k).
Proof.
  induction l as [|x l IH]; simpl.
  - split; [intros _ k Hk; by apply not_elem_of_nil in Hk | done].
  - destruct (has_key x params) eqn:E; simpl.
    + rewrite IH. split.
      * intros H k Hk. apply elem_of_cons in Hk as [->|Hk]; [|by apply H].
        by apply has_key_is_Some.
      * intros H k Hk. apply H. by right.
    + split; [discriminate|]. intros H. exfalso.
      assert (is_Some (params !! x)) as Hx by (apply H; by left).
      apply has_key_is_Some in Hx. congruence.
Qed.

(** C5, as the code has it.  The checker answers COLLECTING_INFO when
    the parameters are absent ([None]); with parameters present, even an
    empty mapping, a set flag gives READY_TO_GENERATE without any look at
    the fields; otherwise READY_TO_GENERATE exactly when every required
    parameter of the template is present, COLLECTING_INFO if not.  Only
    the status changes. *)
Theorem check_requirements_decides (st : AgentState) :
  1 ≤ template_version st ≤ 3 →
  (template_params st = None →
   status (check_requirements st) = "COLLECTING_INFO")
  ∧ (∀ params, template_params st = Some params →
       force_generation st = true →
       status (check_requirements st) = "READY_TO_GENERATE")
  ∧ (∀ params, template_params st = Some params →
       force_generation st = false →
       (status (check_requirements st) = "READY_TO_GENERATE"
        ↔ ∀ k, k ∈ required_elements (template_version st) →
               is_Some (params !! k))
       ∧ (status (check_requirements st) = "READY_TO_GENERATE"
          ∨ status (check_requirements st) = "COLLECTING_INFO"))
  ∧ check_requirements st = set_status (status (check_requirements st)) st.
Proof.
  intros Hv. unfold check_requirements.
  destruct (template_params st) as [params|] eqn:Hp;
    [|split; [done|]; split; [done|]; split; done].
  destruct (force_generation st) eqn:Hf;
    [split; [done|]; split; [done|]; split; done|].
  rewrite (required_params_catalogue _ Hv).
  pose proof (missing_none params (required_elements (template_version st))) as Hm.
  split; [done|]. split; [done|]. split; [|by destruct (List.filter _ _)].
  intros p' Hp' _. injection Hp' as <-.
  destruct (List.filter _ _) as [|x l] eqn:Hl; simpl.
  - split; [|by left]. split; [intros _; by apply Hm | done].
  - split; [|by right]. split; [discriminate|].
    intros Hall. apply Hm in Hall. discriminate Hall.
Qed.

Lemma check_requirements_decides_witness :
  status (check_requirements
            (mkState [] "WAITING_FOR_USER"
               (Some {[ "image_url" := "https://www.x.com/a.jpg" ]})
               None 1 false)) = "COLLECTING_INFO"
  ∧ status (check_requirements
              (mkState [] "WAITING_FOR_USER"
                 (Some (<["property_price" := "$5"]>
                          {[ "image_url" := "https://www.x.com/a.jpg" ]}))
                 None 1 false)) = "READY_TO_GENERATE".
Proof.
  split.
  - pose proof (check_requirements_decides
                  (mkState [] "WAITING_FOR_USER"
                     (Some {[ "image_url" := "https://www.x.com/a.jpg" ]})
                     None 1 false)) as H.
    destruct H as (_ & _ & H & _); [simpl; lia|].
    destruct (H _ eq_refl eq_refl) as [Hiff [Hr|Hc]]; [|exact Hc].
    exfalso. destruct Hiff as [Hto _].
    destruct (Hto Hr "property_price") as [x Hx]; [simpl; set_solver|].
    vm_compute in Hx. discriminate Hx.
  - pose proof (check_requirements_decides
                  (mkState [] "WAITING_FOR_USER"
                     (Some (<["property_price" := "$5"]>
                              {[ "image_url" := "https://www.x.com/a.jpg" ]}))
                     None 1 false)) as H.
    destruct H as (_ & _ & H & _); [simpl; lia|].
    destruct (H _ eq_refl eq_refl) as [[_ Hfrom] _].
    apply Hfrom. simpl. intros k Hk.
    apply elem_of_cons in Hk as [->|Hk]; [by eexists; vm_compute|].
    apply list_elem_of_singleton in Hk as ->. by eexists; vm_compute.
Defined.

(** C5, as the specification states it, fails on an empty mapping with
    the flag set: the answer is READY_TO_GENERATE. *)
Lemma check_requirements_empty_forced :
  template_params switched_session = Some ∅
  ∧ status (check_requirements switched_session) = "READY_TO_GENERATE"
  ∧ status (check_requirements switched_session) ≠ "COLLECTING_INFO".
Proof. repeat split. discriminate. Qed.

(** ** Template Generator *)

(** A failed attempt on a state that has a parameter mapping: the image
    URL is missing or empty, or the rendering service signals an error.
    One note joins the history, the status is COLLECTING_INFO, and
    nothing else changes. *)
Lemma generate_template_failure invoke (st : AgentState)
    (params : gmap string string) :
  template_params st = Some params →
  (params !! "image_url" = None ∨ params !! "image_url" = Some ""
   ∨ ∃ e, invoke (template_version st) params = inl e) →
  ∃ note,
    generate_template invoke st
    = Ok (set_status "COLLECTING_INFO" (append_message (SystemMessage note) st)).
Proof.
  intros Hp H. unfold generate_template. rewrite Hp. unfold has_key.
  destruct (params !! "image_url") as [u|] eqn:Hu; simpl.
  - destruct (String.eqb u "") eqn:Hempty; [by eexists|].
    destruct H as [H|[H|[e He]]].
    + discriminate H.
    + injection H as ->. discriminate Hempty.
    + rewrite He. unfold error_note.
      destruct (_ && _); by eexists.
  - by eexists.
Qed.

(** Without a usable image URL the rendering service is not consulted:
    the outcome is the same whatever the service would answer. *)
Lemma generate_template_no_call invoke1 invoke2 (st : AgentState)
    (params : gmap string string) :
  template_params st = Some params →
  (params !! "image_url" = None ∨ params !! "image_url" = Some "") →
  generate_template invoke1 st = generate_template invoke2 st
  ∧ generate_template invoke1 st
    = Ok (set_status "COLLECTING_INFO" (append_message missing_url_note st)).
Proof.
  intros Hp H. unfold generate_template. rewrite Hp. unfold has_key.
  destruct H as [-> | ->]; done.
Qed.

Example generate_template_examples :
  generate_template render_fails generated_session
  = Ok (set_status "COLLECTING_INFO"
          (append_message
             (SystemMessage "Error generating template: service unavailable")
             generated_session))
  ∧ generate_template render_ok switched_session
    = Ok (set_status "COLLECTING_INFO"
            (append_message missing_url_note switched_session))
  ∧ generate_template render_ok generated_session
    = Ok (set_status "TEMPLATE_GENERATED"
            (set_generation_result
               (Some {[ "url" := "https://img.example/poster.png" ]})
               generated_session)).
Proof.
  split; [vm_compute; reflexivity|]. split; vm_compute; reflexivity.
Qed.


(** ** The flag [force_generation] *)

Lemma switch_template_force p st :
  force_generation (switch_template p st) = force_generation st.
Proof. unfold switch_template. by destruct (negb _). Qed.

Lemma merge_params_force e st :
  force_generation (merge_params e st) = force_generation st.
Proof. unfold merge_params. by destruct (template_params st). Qed.

Lemma merge_params_status e st : status (merge_params e st) = status st.
Proof. unfold merge_params. by destruct (template_params st). Qed.

Lemma force_regeneration_force c st :
  force_generation (force_regeneration c st) = force_generation st || c.
Proof.
  unfold force_regeneration.
  destruct c; simpl; [by rewrite orb_true_r | by rewrite orb_false_r].
Qed.

Lemma update_status_keeps r pm st :
  force_generation st = true →
  force_generation (update_status r pm st) = true.
Proof.
  intros H. unfold update_status.
  repeat match goal with |- context [if ?b then _ else _] => destruct b end;
    simpl; done.
Qed.

Lemma user_turn_keeps_flag (st st' : AgentState) :
  force_generation st = true → user_turn st = Ok st' →
  force_generation st' = true.
Proof.
  intros Hf. unfold user_turn.
  destruct (last (human_messages st)) as [content|]; [|by intros [= <-]].
  destruct (extract_template_params _ _) as [e|]; simpl; [|discriminate].
  destruct (direct_price_modification _ _ _) as [[pm e']|]; simpl; [|discriminate].
  intros [= <-]. apply update_status_keeps.
  rewrite force_regeneration_force, merge_params_force, switch_template_force.
  by rewrite Hf.
Qed.

Lemma check_requirements_force st :
  force_generation (check_requirements st) = force_generation st.
Proof.
  unfold check_requirements.
  destruct (template_params st); [|done].
  destruct (force_generation st) eqn:E; [by simpl|].
  by destruct (List.filter _ _).
Qed.

Lemma generate_template_force invoke (st st' : AgentState) :
  generate_template invoke st = Ok st' →
  force_generation st' = force_generation st.
Proof.
  unfold generate_template.
  destruct (template_params st) as [p|]; [|discriminate].
  destruct (_ || _); [by intros [= <-]|].
  destruct (invoke _ _); by intros [= <-].
Qed.

Lemma turn_keeps_flag invoke llm prompt (st st' : AgentState) :
  force_generation st = true → turn invoke llm prompt st = Ok st' →
  force_generation st' = true.
Proof.
  intros Hf. unfold turn, run_graph.
  destruct (user_turn _) as [s1|] eqn:H1; simpl; [|discriminate].
  apply user_turn_keeps_flag in H1; [|exact Hf].
  destruct (wants_generation _).
  - destruct (generate_template _ _) as [s3|] eqn:H3; simpl; [|discriminate].
    intros [= <-]. simpl. apply generate_template_force in H3.
    by rewrite H3, check_requirements_force.
  - simpl. intros [= <-]. simpl. by rewrite check_requirements_force.
Qed.

(** C1, as the code has it.  No step of turn processing clears the flag:
    once it is set it is still set after any number of further complete
    cycles, whatever the messages, the rendering service and the reply. *)
Theorem force_generation_is_never_cleared invoke llm (prompts : list string)
    (st st' : AgentState) :
  force_generation st = true →
  turns invoke llm prompts st = Ok st' →
  force_generation st' = true.
Proof.
  revert st. induction prompts as [|p rest IH]; intros st Hf; simpl.
  - by intros [= <-].
  - destruct (turn invoke llm p st) as [s1|] eqn:H1; simpl; [|discriminate].
    apply IH. by eapply turn_keeps_flag.
Qed.

Lemma force_generation_is_never_cleared_witness :
  ∃ st',
    turns render_ok reply_ok ["thanks"; "ok"] switched_session = Ok st'
    ∧ force_generation st' = true.
Proof.
  eexists. split.
  - vm_compute. reflexivity.
  - eapply (force_generation_is_never_cleared render_ok reply_ok
              ["thanks"; "ok"] switched_session).
    + reflexivity.
    + vm_compute. reflexivity.
Defined.

(** C1, as the specification states it, fails.  The first message of a
    session sets the flag and the generation branch runs in that very
    cycle; the flag is still set at the end of it, and after two more
    complete cycles. *)
Lemma force_generation_not_consumed :
  ∃ s1 s3,
    force_generation get_initial_state = false
    ∧ turn render_ok reply_ok
        "generate a poster with www.x.com/a.jpg price $5" get_initial_state
      = Ok s1
    ∧ status s1 = "TEMPLATE_GENERATED"
    ∧ is_Some (generation_result s1)
    ∧ force_generation s1 = true
    ∧ turns render_ok reply_ok ["thanks"; "ok"] s1 = Ok s3
    ∧ force_generation s3 = true.
Proof.
  eexists _, _. split; [reflexivity|].
  split; [vm_compute; reflexivity|].
  split; [reflexivity|].
  split; [by eexists|].
  split; [reflexivity|].
  split; [vm_compute; reflexivity|].
  reflexivity.
Qed.

(** ** Turn Processor: when the flag is set *)

Lemma template_in_range_bounds (o : option rmatch) (n : Z) :
  template_in_range o = Some n → 1 ≤ n ≤ 3.
Proof.
  unfold template_in_range. destruct o as [m|]; [|discriminate].
  destruct (_ && _) eqn:E; [|discriminate].
  intros [= <-]. apply andb_true_iff in E as [? ?]. lia.
Qed.

Lemma extract_template_preference_range (text : string) :
  1 ≤ extract_template_preference text ≤ 3.
Proof.
  unfold extract_template_preference.
  destruct (template_in_range (re_search _ re_explicit_template _)) eqn:E1;
    [by eapply template_in_range_bounds|].
  destruct (template_in_range (re_search _ re_template_number _)) eqn:E2;
    [by eapply template_in_range_bounds|].
  repeat match goal with |- context [if ?b then _ else _] => destruct b end; lia.
Qed.

Lemma switch_template_version p st :
  template_version (switch_template p st) = p.
Proof.
  unfold switch_template.
  destruct (p =? template_version st) eqn:E; simpl; [|done].
  symmetry. by apply Z.eqb_eq.
Qed.

Lemma switch_template_result p st :
  generation_result (switch_template p st) = generation_result st.
Proof. unfold switch_template. by destruct (negb _). Qed.

Lemma direct_price_modification_flag t v e pm e' :
  direct_price_modification t v e = Ok (pm, e') →
  pm = (v =? 1) && matched (re_search IGNORECASE re_direct_price t).
Proof.
  unfold direct_price_modification.
  destruct (v =? 1); [|by intros [= <- <-]].
  destruct (re_search _ _ _) as [m|]; [|by intros [= <- <-]].
  destruct (int_float _) as [z|[]]; simpl; by intros [= <- <-].
Qed.

Lemma update_status_frame r pm s :
  template_params (update_status r pm s) = template_params s
  ∧ template_version (update_status r pm s) = template_version s
  ∧ generation_result (update_status r pm s) = generation_result s
  ∧ messages (update_status r pm s) = messages s.
Proof.
  unfold update_status.
  repeat match goal with |- context [if ?b then _ else _] => destruct b end;
    simpl; done.
Qed.

Lemma update_status_force r pm s :
  1 ≤ template_version s ≤ 3 →
  (pm = true → template_version s = 1) →
  force_generation (update_status r pm s)
  = force_generation s || (complete s && (r || pm)).
Proof.
  intros Hv Hpm. unfold update_status, complete.
  assert (template_version s = 1 ∨ template_version s = 2
          ∨ template_version s = 3) as [E|[E|E]] by lia; rewrite E; simpl.
  - destruct (has_key "image_url" _), (has_key "property_price" _); simpl;
      rewrite ?orb_false_r; try done.
    destruct (r || pm); simpl; [by rewrite orb_true_r | by rewrite orb_false_r].
  - assert (pm = false) as -> by (destruct pm; [specialize (Hpm eq_refl); lia|done]).
    rewrite orb_false_r.
    destruct (has_key "image_url" _); simpl; rewrite ?orb_false_r; try done.
    destruct r; simpl; [by rewrite orb_true_r | by rewrite orb_false_r].
  - assert (pm = false) as -> by (destruct pm; [specialize (Hpm eq_refl); lia|done]).
    rewrite orb_false_r.
    destruct (has_key "image_url" _); simpl; rewrite ?orb_false_r; try done.
    destruct r; simpl; [by rewrite orb_true_r | by rewrite orb_false_r].
Qed.




(** ** Template 1: colour adjectives and the explicit colour rule *)

Lemma lookup_set_if b k v (p : gmap string string) k' :
  set_if b k v p !! k' = if b && String.eqb k k' then Some v else p !! k'.
Proof.
  unfold set_if. destruct b; simpl; [|done].
  destruct (String.eqb_spec k k') as [->|Hne].
  - apply lookup_insert_eq.
  - by apply lookup_insert_ne.
Qed.






(** ** What the matcher finds *)

Lemma lit_match_spec ic (l s w r : chars) :
  lit_match ic l s = Some (w, r)
  ↔ s = w ++ r ∧ Forall2 (fun c x => same_char ic c x = true) l w.
Proof.
  revert s w r. induction l as [|c l IH]; intros s w r; simpl.
  - split.
    + intros [= <- <-]. split; [done | constructor].
    + intros [-> H]. by inversion H.
  - destruct s as [|x s].
    + split; [discriminate|]. intros [Hs H]. inversion H; subst. discriminate Hs.
    + fold (same_char ic c x). destruct (same_char ic c x) eqn:E.
      * destruct (lit_match ic l s) as [[w' r']|] eqn:Hl.
        -- apply IH in Hl as [-> Hl]. split.
           ++ intros [= <- <-]. split; [done | by constructor].
           ++ intros [Hs H]. inversion H as [|? y ? w'' ? Hw]; subst.
              simpl in Hs. injection Hs as <- Hs.
              assert (lit_match ic l (w' ++ r') = Some (w'', r)) as Hl2
                by (apply IH; by rewrite Hs).
              assert (lit_match ic l (w' ++ r') = Some (w', r')) as Hl1
                by (by apply IH).
              rewrite Hl1 in Hl2. by injection Hl2 as -> ->.
        -- split; [discriminate|]. intros [Hs H].
           inversion H as [|? y ? w'' ? Hw]; subst.
           simpl in Hs. injection Hs as <- Hs.
           assert (lit_match ic l s = Some (w'', r)) as Hl2 by (by apply IH).
           congruence.
      * split; [discriminate|]. intros [Hs H].
        inversion H as [|? y ? w'' Hy Hw]; subst.
        simpl in Hs. injection Hs as <- Hs. congruence.
Qed.

Lemma star_from_spec (p : ascii → bool) (s w r : chars) :
  In (w, r) (star_from p s) ↔ s = w ++ r ∧ forallb p w = true.
Proof.
  revert w r. induction s as [|x s IH]; intros w r; simpl.
  - split.
    + intros [[= <- <-]|[]]. done.
    + intros [Hs _]. symmetry in Hs. apply app_eq_nil in Hs as [-> ->]. by left.
  - destruct (p x) eqn:Hx.
    + rewrite in_app_iff, in_map_iff. split.
      * intros [[[w' r'] [[= <- <-] Hin]]|[[= <- <-]|[]]]; [|done].
        apply IH in Hin as [-> Hw]. simpl. by rewrite Hx.
      * intros [Hs Hw]. destruct w as [|y w]; simpl in *.
        -- right. left. by rewrite Hs.
        -- injection Hs as <- ->. apply andb_true_iff in Hw as [_ Hw].
           left. exists (w, r). split; [done|]. by apply IH.
    + split.
      * intros [[= <- <-]|[]]. done.
      * intros [Hs Hw]. destruct w as [|y w]; simpl in *.
        -- left. by rewrite Hs.
        -- injection Hs as <- ->. rewrite Hx in Hw. discriminate Hw.
Qed.

(** The matcher lists exactly the ways in which the pattern covers a
    prefix of the subject. *)
Lemma ms_spec ic (r : regex) :
  ∀ (s w : chars) (g : list chars) (rest : chars),
    In (w, g, rest) (ms ic r s) ↔ s = w ++ rest ∧ Matches ic r w g.
Proof.
  induction r as [l|a|a|a|r IH|r1 IH1 r2 IH2|r1 IH1 r2 IH2|r IH];
    intros s w g rest; simpl.
  - destruct (lit_match ic (chars_of l) s) as [[w' r']|] eqn:Hl.
    + apply lit_match_spec in Hl as [-> Hl]. split.
      * intros [[= <- <- <-]|[]]. split; [done | by constructor].
      * intros [Hs H]. inversion H as [? ? HF| | | | | | | | |]; subst. left.
        assert (lit_match ic (chars_of l) (w' ++ r') = Some (w, rest)) as E1
          by (apply lit_match_spec; by rewrite Hs).
        assert (lit_match ic (chars_of l) (w' ++ r') = Some (w', r')) as E2
          by (by apply lit_match_spec).
        rewrite E2 in E1. by injection E1 as -> ->.
    + split; [intros []|]. intros [Hs H].
      inversion H as [? ? HF| | | | | | | | |]; subst.
      assert (lit_match ic (chars_of l) (w ++ rest) = Some (w, rest)) as E1
        by (by apply lit_match_spec).
      congruence.
  - destruct s as [|x s].
    + split; [intros []|]. intros [Hs H]. inversion H; subst. discriminate Hs.
    + destruct (atom_ok ic a x) eqn:Hx.
      * split.
        -- intros [[= <- <- <-]|[]]. split; [done | by constructor].
        -- intros [Hs H]. inversion H; subst. injection Hs as <- <-. by left.
      * split; [intros []|]. intros [Hs H]. inversion H; subst.
        injection Hs as <- <-. congruence.
  - rewrite in_map_iff. split.
    + intros [[w' r'] [[= <- <- <-] Hin]]. apply star_from_spec in Hin as [-> Hw].
      split; [done | by constructor].
    + intros [Hs H]. inversion H; subst. exists (w, rest).
      split; [done|]. by apply star_from_spec.
  - destruct s as [|x s].
    + split; [intros []|]. intros [Hs H]. inversion H as [| | |? ? Hne| | | | | |]; subst.
      symmetry in Hs. apply app_eq_nil in Hs as [-> _]. done.
    + destruct (atom_ok ic a x) eqn:Hx.
      * rewrite in_map_iff. split.
        -- intros [[w' r'] [[= <- <- <-] Hin]].
           apply star_from_spec in Hin as [-> Hw].
           split; [done|]. constructor; [done|]. simpl. by rewrite Hx.
        -- intros [Hs H]. inversion H as [| | |? ? Hne Hall| | | | | |]; subst.
           destruct w as [|y w]; [done|]. simpl in Hs. injection Hs as <- ->.
           simpl in Hall. apply andb_true_iff in Hall as [_ Hall].
           exists (w, rest). split; [done|]. by apply star_from_spec.
      * split; [intros []|]. intros [Hs H].
        inversion H as [| | |? ? Hne Hall| | | | | |]; subst.
        destruct w as [|y w]; [done|]. simpl in Hs. injection Hs as <- ->.
        simpl in Hall. rewrite Hx in Hall. discriminate Hall.
  - rewrite in_app_iff, IH. split.
    + intros [[-> H]|[[= <- <- <-]|[]]].
      * split; [done | by apply MOptSome].
      * split; [done | apply MOptNone].
    + intros [-> H]. inversion H; subst; [by left | right; by left].
  - rewrite in_app_iff, IH1, IH2. split.
    + intros [[-> H]|[-> H]]; (split; [done|]);
        [by apply MAltL | by apply MAltR].
    + intros [-> H]. inversion H; subst; [by left | by right].
  - rewrite in_flat_map. split.
    + intros [[[w1 g1] s1] [H1 Hin]]. apply IH1 in H1 as [-> H1].
      apply in_map_iff in Hin as [[[w2 g2] s2] [[= <- <- <-] H2]].
      apply IH2 in H2 as [-> H2].
      split; [by rewrite app_assoc | by constructor].
    + intros [-> H]. inversion H as [| | | | | | | |? ? w1 g1 w2 g2 H1 H2|]; subst.
      exists (w1, g1, w2 ++ rest). split.
      * apply IH1. split; [by rewrite app_assoc | done].
      * apply in_map_iff. exists (w2, g2, rest). split; [done|]. by apply IH2.
  - rewrite in_map_iff. split.
    + intros [[[w' g'] r'] [[= <- <- <-] Hin]]. apply IH in Hin as [-> H].
      split; [done | by constructor].
    + intros [-> H]. inversion H; subst. exists (w, g0, rest).
      split; [done|]. by apply IH.
Qed.

Lemma first_match_Some ic r (s w : chars) (g : list chars) :
  first_match ic r s = Some (w, g) →
  ∃ rest, s = w ++ rest ∧ Matches ic r w g.
Proof.
  unfold first_match. destruct (ms ic r s) as [|[[w' g'] r'] l] eqn:E;
    [discriminate|].
  intros [= <- <-]. exists r'. apply (ms_spec ic r). rewrite E. by left.
Qed.

Lemma first_match_None ic r (s : chars) :
  first_match ic r s = None ↔
  ∀ w g rest, s = w ++ rest → ¬ Matches ic r w g.
Proof.
  unfold first_match. split.
  - destruct (ms ic r s) as [|[[w' g'] r'] l] eqn:E; [|discriminate].
    intros _ w g rest Hs H.
    assert (In (w, g, rest) (ms ic r s)) as Hin by (by apply ms_spec).
    by rewrite E in Hin.
  - intros H. destruct (ms ic r s) as [|[[w' g'] r'] l] eqn:E; [done|].
    exfalso. assert (In (w', g', r') (ms ic r s)) as Hin by (rewrite E; by left).
    apply ms_spec in Hin as [Hs Hm]. by eapply H.
Qed.

(** [re.search] reports a match of the pattern, and no match starts to
    the left of it. *)
Lemma re_search_Some ic r (s w : chars) (g : list chars) :
  re_search ic r s = Some (w, g) →
  ∃ pre post,
    s = pre ++ w ++ post ∧ Matches ic r w g
    ∧ ∀ pre' w' g' post',
        s = pre' ++ w' ++ post' → Matches ic r w' g' →
        (List.length pre ≤ List.length pre')%nat.
Proof.
  induction s as [|x s IH]; simpl.
  - destruct (first_match ic r []) as [[w' g']|] eqn:E; [|discriminate].
    intros [= -> ->]. apply first_match_Some in E as [rest [Hs Hm]].
    exists [], rest. split; [done|]. split; [done|]. intros; simpl; lia.
  - destruct (first_match ic r (x :: s)) as [[w' g']|] eqn:E.
    + intros [= -> ->]. apply first_match_Some in E as [rest [Hs Hm]].
      exists [], rest. split; [done|]. split; [done|]. intros; simpl; lia.
    + intros H. apply IH in H as (pre & post & -> & Hm & Hleft).
      exists (x :: pre), post. split; [done|]. split; [done|].
      intros pre' w' g' post' Hs' Hm'. destruct pre' as [|y pre'].
      * exfalso. simpl in Hs'.
        by apply (proj1 (first_match_None ic r _) E w' g' post').
      * simpl in Hs'. injection Hs' as <- Hs'. simpl.
        specialize (Hleft _ _ _ _ Hs' Hm'). lia.
Qed.

Lemma re_search_None ic r (s : chars) :
  re_search ic r s = None ↔ ¬ occurs ic r s.
Proof.
  split.
  - induction s as [|x s IH]; simpl.
    + destruct (first_match ic r []) eqn:E; [discriminate|].
      intros _ (pre & w & g & post & Hs & Hm).
      symmetry in Hs. apply app_eq_nil in Hs as [-> Hs].
      by apply (proj1 (first_match_None ic r _) E w g post).
    + destruct (first_match ic r (x :: s)) eqn:E; [discriminate|].
      intros H (pre & w & g & post & Hs & Hm). destruct pre as [|y pre].
      * by apply (proj1 (first_match_None ic r _) E w g post).
      * simpl in Hs. injection Hs as <- Hs. apply (IH H).
        by exists pre, w, g, post.
  - intros H. destruct (re_search ic r s) as [[w g]|] eqn:E; [|done].
    exfalso. apply H. apply re_search_Some in E as (pre & post & Hs & Hm & _).
    by exists pre, w, g, post.
Qed.


(** ** Which keys the extraction writes *)

Ltac in_list := by repeat constructor.

Ltac other_key Hk :=
  apply lookup_insert_ne; intros <-; apply Hk; in_list.

Ltac split_ifs :=
  repeat match goal with
         | |- context [if ?b then _ else _] => destruct b
         end.

Lemma fold_left_frame {M : Type} (f : gmap string string → M → gmap string string)
    (k : string) (l : list M) :
  (∀ p m, f p m !! k = p !! k) →
  ∀ p, fold_left f l p !! k = p !! k.
Proof.
  intros Hf. induction l as [|m l IH]; intros p; [done|].
  cbn [fold_left]. by rewrite IH, Hf.
Qed.

Lemma set_from_frame ic r post key t (p : gmap string string) k :
  k ≠ key → set_from ic r post key t p !! k = p !! k.
Proof.
  intros Hk. unfold set_from. destruct (re_search ic r t); [|done].
  by apply lookup_insert_ne.
Qed.

Lemma set_text_frame p m k :
  k ∉ later_keys 1 → set_text p m !! k = p !! k.
Proof. intros Hk. unfold set_text. split_ifs; try done; other_key Hk. Qed.

Lemma set_color_frame p m k :
  k ∉ later_keys 1 → set_color p m !! k = p !! k.
Proof. intros Hk. unfold set_color. split_ifs; try done; other_key Hk. Qed.

Lemma set_adjective_frame t p ec k :
  k ∉ later_keys 1 → set_adjective t p ec !! k = p !! k.
Proof.
  intros Hk. destruct ec as [a c]. unfold set_adjective.
  rewrite !lookup_set_if.
  assert (∀ key, key ∈ later_keys 1 → String.eqb key k = false) as Hne.
  { intros key Hin. apply String.eqb_neq. intros ->. by apply Hk. }
  rewrite !Hne, !andb_false_r by in_list. done.
Qed.

Lemma set_secondary_frame p m k :
  k ∉ later_keys 3 → set_secondary p m !! k = p !! k.
Proof. intros Hk. unfold set_secondary. split_ifs; try done; other_key Hk. Qed.

Lemma extract_price_frame t (p q : gmap string string) k :
  extract_price t p = Ok q → k ≠ "property_price" → q !! k = p !! k.
Proof.
  unfold extract_price. intros H Hk.
  destruct (re_search IGNORECASE re_price_modification t) as [m|].
  - destruct (price_of_match m); [|discriminate].
    apply Ok_inj in H as <-. by apply lookup_insert_ne.
  - destruct (match re_search NOFLAGS re_dollar t with
              | Some m => Some m
              | None => re_search IGNORECASE re_price_word t
              end) as [m|].
    + destruct (price_of_match m); [|discriminate].
      apply Ok_inj in H as <-. by apply lookup_insert_ne.
    + by apply Ok_inj in H as <-.
Qed.

Lemma str_app (a b : chars) : str (a ++ b) = str a +:+ str b.
Proof. induction a as [|x a IH]; simpl; [done|]. by rewrite IH. Qed.

Lemma extract_image_url_lookup t :
  extract_image_url t ∅ !! "image_url" = first_image_rule t.
Proof.
  unfold extract_image_url, first_image_rule.
  destruct (re_search IGNORECASE re_image_url t) as [m|].
  - by rewrite !lookup_insert_eq.
  - destruct (re_search IGNORECASE re_www_url t) as [m|].
    + rewrite !lookup_insert_eq. by rewrite str_app.
    + rewrite lookup_empty.
      destruct (re_search IGNORECASE re_general_url t) as [m|].
      * rewrite lookup_insert_eq. by rewrite str_app.
      * apply lookup_empty.
Qed.

Lemma extract_image_url_frame t k :
  k ≠ "image_url" → extract_image_url t ∅ !! k = None.
Proof.
  intros Hk. unfold extract_image_url.
  repeat match goal with
         | |- context [match ?x with _ => _ end] => destruct x
         end; rewrite ?lookup_insert_ne by done; apply lookup_empty.
Qed.

(** After the image rules, the extraction writes keys of [later_keys]
    only. *)
Lemma extract_template_params_frame text v (p : gmap string string) k :
  extract_template_params text v = Ok p →
  k ∉ later_keys v →
  p !! k = extract_image_url (chars_of text) ∅ !! k.
Proof.
  unfold extract_template_params. intros H Hk.
  destruct (v =? 1) eqn:E1; [apply Z.eqb_eq in E1 as ->|].
  { destruct (extract_price _ _) as [q|] eqn:Hq; cbn [bind] in H; [|discriminate].
    apply Ok_inj in H as <-.
    rewrite (fold_left_frame _ _ _ (fun p ec => set_adjective_frame _ p ec _ Hk)).
    rewrite (fold_left_frame _ _ _ (fun p m => set_color_frame p m _ Hk)).
    rewrite (fold_left_frame _ _ _ (fun p m => set_text_frame p m _ Hk)).
    apply (extract_price_frame _ _ _ _ Hq). intros ->. apply Hk. in_list. }
  destruct (v =? 2) eqn:E2; [apply Z.eqb_eq in E2 as ->|].
  { apply Ok_inj in H as <-.
    rewrite !set_from_frame; [done|..]; intros ->; apply Hk; in_list. }
  destruct (v =? 3) eqn:E3; [apply Z.eqb_eq in E3 as ->|].
  { apply Ok_inj in H as <-.
    rewrite !set_from_frame; [|intros ->; apply Hk; in_list..].
    by rewrite (fold_left_frame _ _ _ (fun p m => set_secondary_frame p m _ Hk)). }
  by apply Ok_inj in H as <-.
Qed.

Lemma image_url_not_later v : "image_url" ∉ later_keys v.
Proof.
  unfold later_keys, customizable_elements.
  destruct (v =? 3); [|destruct (v =? 1); [|destruct (v =? 2)]]; simpl;
    intros H;
    repeat (apply elem_of_cons in H as [H|H]; [discriminate H|]);
    by apply not_elem_of_nil in H.
Qed.

(** ** Image URL *)



Example image_url_absolute_as_is :
  extract_template_params "photo: http://a.com/x.jpg, or www.b.org/y.png" 3
  = Ok {[ "image_url" := "http://a.com/x.jpg" ]}.
Proof. vm_compute. reflexivity. Qed.

Example image_url_last_resort :
  extract_template_params "see www.foo.bar" 2
  = Ok {[ "image_url" := "https://www.foo.bar" ]}.
Proof. vm_compute. reflexivity. Qed.

(** ** Characters *)

Ltac all_chars x :=
  destruct x as [[] [] [] [] [] [] [] []]; vm_compute;
  try reflexivity; try discriminate; try done.

Lemma lower_char_idem x : lower_char (lower_char x) = lower_char x.
Proof. all_chars x. Qed.







Lemma eqc_eq a b : eqc a b = true ↔ a = b.
Proof. apply Ascii.eqb_eq. Qed.

Lemma same_char_lower (l w : chars) :
  Forall2 (fun c x => same_char true c x = true) l w → lower w = lower l.
Proof.
  induction 1 as [|c x l w Hc _ IH]; simpl; [done|].
  unfold same_char in Hc. apply eqc_eq in Hc. by rewrite Hc, IH.
Qed.

Lemma starts_with_app (p s : chars) : starts_with p (p ++ s) = true.
Proof.
  induction p as [|c p IH]; simpl; [done|].
  rewrite IH, andb_true_r. by apply eqc_eq.
Qed.

(** ** Taking a match apart *)

Lemma Matches_Seq_inv ic r1 r2 w g :
  Matches ic (Seq r1 r2) w g →
  ∃ w1 g1 w2 g2,
    w = w1 ++ w2 ∧ g = g1 ++ g2 ∧ Matches ic r1 w1 g1 ∧ Matches ic r2 w2 g2.
Proof. intros H. inversion H; subst. by eexists _, _, _, _. Qed.

Lemma Matches_Lit_inv ic l w g :
  Matches ic (Lit l) w g →
  g = [] ∧ Forall2 (fun c x => same_char ic c x = true) (chars_of l) w.
Proof. intros H. by inversion H; subst. Qed.




Lemma Matches_Grp_inv ic r w g :
  Matches ic (Grp r) w g → ∃ g', g = w :: g' ∧ Matches ic r w g'.
Proof. intros H. inversion H; subst. by eexists. Qed.






(** ** Template choice *)















(** ** Matching without regard to case *)


















Example template_choice_examples :
  extract_template_preference "use template 2" = 2
  ∧ extract_template_preference "I'd like Template Number 3, please" = 3
  ∧ extract_template_preference "a house agent poster" = 2
  ∧ extract_template_preference "the best home in town" = 3
  ∧ extract_template_preference "yes" = 1.
Proof.
  split; [vm_compute; reflexivity|]. split; [vm_compute; reflexivity|].
  split; [vm_compute; reflexivity|]. split; vm_compute; reflexivity.
Qed.

(** ** Price *)

Lemma price_of_match_formatted (m : rmatch) (z : Z) :
  int_float (remove_char "," (group 1 m)) = Ok z →
  price_of_match m = Ok (str (format_price z)).
Proof. unfold price_of_match. by intros ->. Qed.

Lemma price_of_match_raw (m : rmatch) :
  int_float (remove_char "," (group 1 m)) = Raise ValueError →
  price_of_match m = Ok (str ("$"%char :: group 1 m)).
Proof. unfold price_of_match. by intros ->. Qed.

Lemma price_of_match_overflow (m : rmatch) :
  int_float (remove_char "," (group 1 m)) = Raise OverflowError →
  price_of_match m = Raise OverflowError.
Proof. unfold price_of_match. by intros ->. Qed.

(** The steps of template 1 after the price leave the price alone. *)
Lemma template1_price (text : string) (p : gmap string string) :
  extract_template_params text 1 = Ok p →
  ∃ q, extract_price (chars_of text) (extract_image_url (chars_of text) ∅) = Ok q
       ∧ p !! "property_price" = q !! "property_price".
Proof.
  unfold extract_template_params. change (1 =? 1) with true. cbv beta iota zeta.
  destruct (extract_price _ _) as [q|]; cbn [bind]; [|discriminate].
  intros H. apply Ok_inj in H as <-. exists q. split; [done|].
  rewrite !fold_left_frame; [done|..].
  - intros p0 m. unfold set_text. split_ifs; try done; by apply lookup_insert_ne.
  - intros p0 m. unfold set_color. split_ifs; try done; by apply lookup_insert_ne.
  - intros p0 [a c]. unfold set_adjective. rewrite !lookup_set_if. simpl.
    by rewrite !andb_false_r.
Qed.

(** A modification phrase decides the price, whatever else the text
    holds: a dollar amount or a price phrase elsewhere is not looked at. *)
Lemma price_modification_first (text : string) (p : gmap string string)
    (m : rmatch) :
  extract_template_params text 1 = Ok p →
  re_search IGNORECASE re_price_modification (chars_of text) = Some m →
  ∃ v, price_of_match m = Ok v ∧ p !! "property_price" = Some v.
Proof.
  intros Hp Hm. apply template1_price in Hp as (q & Hq & ->).
  unfold extract_price in Hq. rewrite Hm in Hq.
  destruct (price_of_match m) as [v|]; cbn [bind] in Hq; [|discriminate].
  apply Ok_inj in Hq as <-. exists v. split; [done|]. apply lookup_insert_eq.
Qed.

(** Without a modification phrase the first dollar amount decides, and
    a price phrase when there is no dollar amount. *)
Lemma price_fallback (text : string) (p : gmap string string) :
  extract_template_params text 1 = Ok p →
  re_search IGNORECASE re_price_modification (chars_of text) = None →
  match re_search NOFLAGS re_dollar (chars_of text),
        re_search IGNORECASE re_price_word (chars_of text) with
  | Some m, _ | None, Some m =>
      ∃ v, price_of_match m = Ok v ∧ p !! "property_price" = Some v
  | None, None => p !! "property_price" = None
  end.
Proof.
  intros Hp Hm. apply template1_price in Hp as (q & Hq & ->).
  unfold extract_price in Hq. rewrite Hm in Hq.
  destruct (re_search NOFLAGS re_dollar (chars_of text)) as [m|].
  - destruct (price_of_match m) as [v|]; cbn [bind] in Hq; [|discriminate].
    apply Ok_inj in Hq as <-. exists v. split; [done|]. apply lookup_insert_eq.
  - destruct (re_search IGNORECASE re_price_word (chars_of text)) as [m|].
    + destruct (price_of_match m) as [v|]; cbn [bind] in Hq; [|discriminate].
      apply Ok_inj in Hq as <-. exists v. split; [done|]. apply lookup_insert_eq.
    + apply Ok_inj in Hq as <-. by apply extract_image_url_frame.
Qed.

Example price_examples :
  extract_template_params "$450,000" 1
  = Ok {[ "property_price" := "$450,000" ]}
  ∧ extract_template_params "modify the price to 500000" 1
    = Ok {[ "property_price" := "$500,000" ]}
  ∧ extract_template_params "it costs $300,000 but modify the price to 500000" 1
    = Ok {[ "property_price" := "$500,000" ]}
  ∧ extract_template_params "price: 450,000.00" 1
    = Ok {[ "property_price" := "$450,000" ]}
  ∧ extract_template_params "the price is $1.2.3 now" 1
    = Ok {[ "property_price" := "$1.2.3" ]}.
Proof.
  split; [vm_compute; reflexivity|]. split; [vm_compute; reflexivity|].
  split; [vm_compute; reflexivity|]. split; vm_compute; reflexivity.
Qed.

(** C7, at a price of 309 digits.  The dollar pattern captures the
    digits, [float] gives infinity, [int] raises [OverflowError], and
    the handler, which catches [ValueError] only, lets it through: the
    extraction raises and so does the Turn Processor, where the specification
    has the raw digits behind a dollar sign. *)
Theorem huge_price_raises :
  (∃ digits,
     re_search IGNORECASE re_price_modification (chars_of huge_price) = None
     ∧ re_search NOFLAGS re_dollar (chars_of huge_price)
       = Some (chars_of huge_price, [digits])
     ∧ chars_of huge_price = "$"%char :: digits
     ∧ int_float (remove_char "," digits) = Raise OverflowError)
  ∧ extract_template_params huge_price 1 = Raise OverflowError
  ∧ user_turn (append_message (HumanMessage huge_price) get_initial_state)
    = Raise OverflowError.
Proof.
  split.
  - eexists. split; [vm_compute; reflexivity|].
    split; [vm_compute; reflexivity|].
    split; vm_compute; reflexivity.
  - split; vm_compute; reflexivity.
Qed.

(** ** Keys and schemas *)

Lemma later_keys_schema v k :
  1 ≤ v ≤ 3 → k ∈ later_keys v →
  k ∈ customizable_elements v ∨ (v = 3 ∧ k = "cta_color").
Proof.
  intros Hv Hk.
  assert (v = 1 ∨ v = 2 ∨ v = 3) as [->|[->| ->]] by lia;
    unfold later_keys in Hk; simpl in Hk.
  - left. by right.
  - left. by right.
  - apply elem_of_cons in Hk as [->|Hk]; [by right|]. left. by right.
Qed.

(** The keys of an extraction belong to the schema of the template, but
    for [cta_color] under template 3. *)
Lemma extraction_keys (text : string) (v : Z) (p : gmap string string) k :
  1 ≤ v ≤ 3 →
  extract_template_params text v = Ok p →
  is_Some (p !! k) →
  k ∈ customizable_elements v ∨ (v = 3 ∧ k = "cta_color").
Proof.
  intros Hv Hp Hk.
  destruct (decide (k ∈ later_keys v)) as [Hin|Hout];
    [by apply later_keys_schema|].
  rewrite (extract_template_params_frame _ _ _ _ Hp Hout) in Hk.
  destruct (decide (k = "image_url")) as [->|Hne].
  - left. assert (v = 1 ∨ v = 2 ∨ v = 3) as [->|[->| ->]] by lia; by left.
  - rewrite extract_image_url_frame in Hk by done. by destruct Hk.
Qed.

Lemma extraction_valid (text : string) (v : Z) (p : gmap string string) :
  v = 1 ∨ v = 2 →
  extract_template_params text v = Ok p → valid_for v p.
Proof.
  intros Hv Hp k Hk.
  destruct (extraction_keys text v p k) as [H|[-> _]]; [lia|done|done|done|lia].
Qed.

Lemma merge_valid v (e old : gmap string string) :
  valid_for v e → valid_for v old → valid_for v (e ∪ old).
Proof.
  intros He Hold k Hk. apply lookup_union_is_Some in Hk as [Hk|Hk]; auto.
Qed.

Lemma merge_params_params e st :
  params_of (merge_params e st) = e ∪ params_of st.
Proof.
  unfold merge_params, params_of.
  destruct (template_params st); simpl; [done|]. by rewrite (right_id_L ∅ (∪)).
Qed.

Lemma switch_template_valid p st :
  valid_for (template_version st) (params_of st) →
  valid_for p (params_of (switch_template p st)).
Proof.
  unfold switch_template. intros H.
  destruct (p =? template_version st) eqn:E; simpl.
  - apply Z.eqb_eq in E. by rewrite E.
  - intros k Hk. unfold params_of in Hk. simpl in Hk.
    rewrite lookup_empty in Hk. by destruct Hk.
Qed.

Lemma direct_price_modification_valid t v e pm e' :
  direct_price_modification t v e = Ok (pm, e') →
  valid_for v e → valid_for v e'.
Proof.
  unfold direct_price_modification.
  destruct (v =? 1) eqn:E; [|by intros [= _ <-]]. apply Z.eqb_eq in E as ->.
  destruct (re_search _ _ _) as [m|]; [|by intros [= _ <-]].
  destruct (int_float _) as [z|[]]; simpl; intros [= _ <-]; try done.
  intros He k Hk. destruct (decide (k = "property_price")) as [->|Hne].
  - simpl. in_list.
  - rewrite lookup_insert_ne in Hk by done. by apply He.
Qed.

(** The Turn Processor keeps the parameters within the schema of the
    active template as long as that template is 1 or 2. *)
Lemma user_turn_keeps_schema (st st' : AgentState) :
  user_turn st = Ok st' →
  valid_for (template_version st) (params_of st) →
  template_version st' ≠ 3 →
  valid_for (template_version st') (params_of st').
Proof.
  unfold user_turn. intros Hrun Hvalid.
  destruct (last (human_messages st)) as [content|];
    [|by apply Ok_inj in Hrun as <-].
  set (pref := extract_template_preference content) in *.
  set (st1 := switch_template pref st) in *.
  assert (template_version st1 = pref) as Hv1 by apply switch_template_version.
  assert (valid_for pref (params_of st1)) as Hold
    by (by apply switch_template_valid).
  rewrite Hv1 in Hrun.
  destruct (extract_template_params content pref) as [e|] eqn:He;
    cbn [bind] in Hrun; [|discriminate].
  destruct (direct_price_modification (chars_of content) pref e)
    as [[pm e']|] eqn:Hd; cbn [bind] in Hrun; [|discriminate].
  apply Ok_inj in Hrun as <-.
  set (c := force_condition _ _ _ _ _).
  destruct (update_status_frame (is_regeneration_request (chars_of content)) pm
              (force_regeneration c (merge_params e' st1)))
    as (Hp & Hv & _ & _).
  assert (template_version (force_regeneration c (merge_params e' st1)) = pref)
    as Hv2.
  { unfold force_regeneration, merge_params.
    by destruct c, (template_params st1). }
  assert (params_of (force_regeneration c (merge_params e' st1))
          = e' ∪ params_of st1) as Hp2.
  { rewrite <- merge_params_params. unfold force_regeneration.
    by destruct c. }
  unfold params_of at 1. rewrite Hv, Hp, Hv2.
  fold (params_of (force_regeneration c (merge_params e' st1))). rewrite Hp2.
  intros Hne. apply merge_valid; [|done].
  apply (direct_price_modification_valid _ _ _ _ _ Hd).
  apply (extraction_valid content); [|done].
  pose proof (extract_template_preference_range content). fold pref in H. lia.
Qed.

(** C2, at the text [button color red] under template 3.  The
    extraction returns the key [cta_color], which the schema of template
    3 does not have, and one turn from the initial state reaches a
    session of template 3 whose parameters hold that key. *)
Theorem template3_button_color :
  extract_template_params "button color red" 3
  = Ok {[ "cta_color" := "red" ]}
  ∧ ("cta_color" ∉ customizable_elements 3)
  ∧ (¬ valid_for 3 {[ "cta_color" := "red" ]})
  ∧ ∃ st,
      turn render_ok reply_ok
        "use template 3 with www.x.com/a.png and a button color red"
        get_initial_state = Ok st
      ∧ template_version st = 3
      ∧ params_of st !! "cta_color" = Some "red"
      ∧ ¬ valid_for 3 (params_of st).
Proof.
  assert ("cta_color" ∉ customizable_elements 3) as Hout.
  { simpl. intros H.
    repeat (apply elem_of_cons in H as [H|H]; [discriminate H|]).
    by apply not_elem_of_nil in H. }
  split; [vm_compute; reflexivity|]. split; [exact Hout|]. split.
  - intros H. apply Hout, H. by eexists.
  - eexists. split; [vm_compute; reflexivity|]. split; [reflexivity|].
    split; [reflexivity|]. intros H. apply Hout, H. by eexists.
Qed.

(** * Further properties of the code *)

(** ** The Turn Processor, step by step *)

Lemma state_eq (a b : AgentState) :
  messages a = messages b → status a = status b →
  template_params a = template_params b →
  generation_result a = generation_result b →
  template_version a = template_version b →
  force_generation a = force_generation b → a = b.
Proof. destruct a, b; simpl; intros; subst; reflexivity. Qed.

(** What [user_turn] returns for a state whose last user message is
    [content]. *)
Lemma user_turn_run (st st' : AgentState) (content : string) :
  last (human_messages st) = Some content →
  user_turn st = Ok st' →
  ∃ e pm e',
    extract_template_params content (extract_template_preference content)
    = Ok e
    ∧ direct_price_modification (chars_of content)
        (extract_template_preference content) e = Ok (pm, e')
    ∧ st' = update_status (is_regeneration_request (chars_of content)) pm
              (force_regeneration
                 (force_condition (is_regeneration_request (chars_of content))
                    (is_url_request (chars_of content))
                    (params_changed
                       (params_of (switch_template
                                     (extract_template_preference content) st))
                       e')
                    pm
                    (status (switch_template
                               (extract_template_preference content) st)))
                 (merge_params e'
                    (switch_template (extract_template_preference content) st))).
Proof.
  intros Hlast Hrun. unfold user_turn in Hrun. rewrite Hlast in Hrun.
  rewrite switch_template_version in Hrun.
  destruct (extract_template_params content _) as [e|] eqn:He;
    cbn [bind] in Hrun; [|discriminate].
  destruct (direct_price_modification _ _ e) as [[pm e']|] eqn:Hd;
    cbn [bind] in Hrun; [|discriminate].
  apply Ok_inj in Hrun. exists e, pm, e'.
  split; [done|]. split; [done|].
  by rewrite merge_params_status in Hrun.
Qed.

Lemma user_turn_build (st : AgentState) (content : string) e pm e' :
  last (human_messages st) = Some content →
  extract_template_params content (extract_template_preference content)
  = Ok e →
  direct_price_modification (chars_of content)
    (extract_template_preference content) e = Ok (pm, e') →
  user_turn st
  = Ok (update_status (is_regeneration_request (chars_of content)) pm
          (force_regeneration
             (force_condition (is_regeneration_request (chars_of content))
                (is_url_request (chars_of content))
                (params_changed
                   (params_of (switch_template
                                 (extract_template_preference content) st))
                   e')
                pm
                (status (switch_template
                           (extract_template_preference content) st)))
             (merge_params e'
                (switch_template (extract_template_preference content) st)))).
Proof.
  intros Hlast He Hd. unfold user_turn. rewrite Hlast.
  rewrite switch_template_version, He. cbn [bind]. rewrite Hd. cbn [bind].
  by rewrite merge_params_status.
Qed.

Lemma switch_template_messages p st :
  messages (switch_template p st) = messages st.
Proof. unfold switch_template. by destruct (negb _). Qed.

Lemma merge_params_frame e st :
  template_params (merge_params e st) = Some (e ∪ params_of st)
  ∧ template_version (merge_params e st) = template_version st
  ∧ generation_result (merge_params e st) = generation_result st
  ∧ messages (merge_params e st) = messages st.
Proof.
  unfold merge_params, params_of.
  destruct (template_params st); simpl; [done|].
  by rewrite (right_id_L ∅ (∪)).
Qed.

Lemma force_regeneration_frame c st :
  template_params (force_regeneration c st) = template_params st
  ∧ template_version (force_regeneration c st) = template_version st
  ∧ status (force_regeneration c st) = status st
  ∧ messages (force_regeneration c st) = messages st
  ∧ generation_result (force_regeneration c st)
    = (if c then None else generation_result st).
Proof. unfold force_regeneration. by destruct c. Qed.

Lemma update_status_status r pm s :
  1 ≤ template_version s ≤ 3 →
  status (update_status r pm s)
  = if complete s then "READY_TO_GENERATE" else status s.
Proof.
  intros Hv. unfold update_status, complete.
  assert (template_version s = 1 ∨ template_version s = 2
          ∨ template_version s = 3) as [E|[E|E]] by lia; rewrite E; simpl.
  - destruct (has_key "image_url" _), (has_key "property_price" _); simpl;
      try done. by destruct (r || pm).
  - destruct (has_key "image_url" _); simpl; [|done]. by destruct r.
  - destruct (has_key "image_url" _); simpl; [|done]. by destruct r.
Qed.

Lemma direct_price_modification_version t v e e' :
  direct_price_modification t v e = Ok (true, e') → v = 1.
Proof.
  intros H. apply direct_price_modification_flag in H.
  symmetry in H. apply andb_true_iff in H as [H _]. by apply Z.eqb_eq.
Qed.

(** The state after [user_turn], field by field. *)
Lemma user_turn_fields (st st' : AgentState) (content : string) :
  last (human_messages st) = Some content →
  user_turn st = Ok st' →
  ∃ e pm e',
    extract_template_params content (extract_template_preference content)
    = Ok e
    ∧ direct_price_modification (chars_of content)
        (extract_template_preference content) e = Ok (pm, e')
    ∧ messages st' = messages st
    ∧ template_version st' = extract_template_preference content
    ∧ template_params st'
      = Some (e' ∪ params_of (switch_template
                                (extract_template_preference content) st))
    ∧ status st'
      = (if complete st' then "READY_TO_GENERATE"
         else status (switch_template
                        (extract_template_preference content) st)).
Proof.
  intros Hlast Hrun.
  destruct (user_turn_run _ _ _ Hlast Hrun) as (e & pm & e' & He & Hd & ->).
  exists e, pm, e'. split; [done|]. split; [done|].
  set (r := is_regeneration_request _). set (c := force_condition _ _ _ _ _).
  set (st1 := switch_template _ st).
  destruct (update_status_frame r pm (force_regeneration c (merge_params e' st1)))
    as (Hp & Hv & _ & Hm).
  destruct (force_regeneration_frame c (merge_params e' st1))
    as (Hp2 & Hv2 & Hs2 & Hm2 & _).
  destruct (merge_params_frame e' st1) as (Hp3 & Hv3 & _ & Hm3).
  assert (template_version (force_regeneration c (merge_params e' st1))
          = extract_template_preference content) as Hpref.
  { rewrite Hv2, Hv3. apply switch_template_version. }
  split; [by rewrite Hm, Hm2, Hm3; apply switch_template_messages|].
  split; [by rewrite Hv|]. split; [by rewrite Hp, Hp2, Hp3|].
  assert (complete (update_status r pm (force_regeneration c (merge_params e' st1)))
          = complete (force_regeneration c (merge_params e' st1))) as Hc.
  { unfold complete, params_of. by rewrite Hp, Hv. }
  rewrite Hc, update_status_status, Hs2, merge_params_status; [done|].
  rewrite Hpref. apply extract_template_preference_range.
Qed.

(** ** Turn Processor: template, parameters, status *)

Lemma last_human_appended (prompt : string) (st : AgentState) :
  last (human_messages (append_message (HumanMessage prompt) st))
  = Some prompt.
Proof.
  unfold human_messages, append_message. simpl.
  rewrite omap_app. simpl. apply last_snoc.
Qed.

(** X1. Whatever template the session had, after the Turn Processor the
    active template is the one read from the last user message: 1 when
    the message carries no template signal. *)
Theorem user_turn_template_from_message (st st' : AgentState)
    (content : string) :
  last (human_messages st) = Some content →
  user_turn st = Ok st' →
  template_version st' = extract_template_preference content
  ∧ 1 ≤ template_version st' ≤ 3.
Proof.
  intros Hlast Hrun.
  destruct (user_turn_fields _ _ _ Hlast Hrun)
    as (e & pm & e' & _ & _ & _ & Hv & _).
  split; [done|]. rewrite Hv. apply extract_template_preference_range.
Qed.

Lemma user_turn_template_from_message_witness :
  ∃ st',
    user_turn (session "thanks a lot" "READY_TO_GENERATE" listing 2) = Ok st'
    ∧ template_version st' = 1.
Proof.
  assert (∃ st',
            user_turn (session "thanks a lot" "READY_TO_GENERATE" listing 2) = Ok st') as [st' Hrun]
    by (eexists; vm_compute; reflexivity).
  exists st'. split; [exact Hrun|].
  destruct (user_turn_template_from_message
              (session "thanks a lot" "READY_TO_GENERATE" listing 2) st'
              "thanks a lot" eq_refl Hrun)
    as [Hv _].
  rewrite Hv. vm_compute. reflexivity.
Defined.

(** X2. When the message names another template than the active one, no
    parameter of the old template survives: the parameters are exactly
    those read from this message, and the status is READY_TO_GENERATE if
    they already hold every required parameter, COLLECTING_INFO if not,
    whatever the status was. *)
Theorem user_turn_switch_drops_parameters (st st' : AgentState)
    (content : string) :
  last (human_messages st) = Some content →
  extract_template_preference content ≠ template_version st →
  user_turn st = Ok st' →
  ∃ e pm e',
    extract_template_params content (extract_template_preference content)
    = Ok e
    ∧ direct_price_modification (chars_of content)
        (extract_template_preference content) e = Ok (pm, e')
    ∧ template_params st' = Some e'
    ∧ status st' = (if complete st' then "READY_TO_GENERATE"
                    else "COLLECTING_INFO").
Proof.
  intros Hlast Hne Hrun.
  destruct (user_turn_fields _ _ _ Hlast Hrun)
    as (e & pm & e' & He & Hd & _ & _ & Hp & Hs).
  exists e, pm, e'. split; [done|]. split; [done|].
  unfold switch_template in Hp, Hs.
  apply Z.eqb_neq in Hne. rewrite Hne in Hp, Hs. simpl in Hp, Hs.
  unfold params_of in Hp. simpl in Hp. rewrite (right_id_L ∅ (∪)) in Hp.
  done.
Qed.

Lemma user_turn_switch_drops_parameters_witness :
  ∃ st',
    user_turn (session "use template 2" "TEMPLATE_GENERATED" listing 1) = Ok st'
    ∧ template_params st' = Some ∅
    ∧ status st' = "COLLECTING_INFO".
Proof.
  assert (∃ st',
            user_turn (session "use template 2" "TEMPLATE_GENERATED" listing 1) = Ok st') as [st' Hrun]
    by (eexists; vm_compute; reflexivity).
  exists st'. split; [exact Hrun|].
  destruct (user_turn_switch_drops_parameters
              (session "use template 2" "TEMPLATE_GENERATED" listing 1) st'
              "use template 2" eq_refl)
    with (2 := Hrun) as (e & pm & e' & He & Hd & Hp & Hs);
    [vm_compute; discriminate|].
  vm_compute in He. apply Ok_inj in He as <-.
  vm_compute in Hd. injection Hd as <- <-.
  split; [exact Hp|]. rewrite Hs. unfold complete, params_of.
  rewrite Hp.
  replace (template_version st') with 2; [reflexivity|].
  vm_compute in Hrun. by apply Ok_inj in Hrun as <-.
Defined.

(** X3. When the message keeps the active template, no parameter is lost:
    a key read from the message takes the new value, every other key
    keeps the value it had. *)
Theorem user_turn_keeps_parameters (st st' : AgentState) (content : string) :
  last (human_messages st) = Some content →
  extract_template_preference content = template_version st →
  user_turn st = Ok st' →
  ∃ e pm e',
    extract_template_params content (template_version st) = Ok e
    ∧ direct_price_modification (chars_of content) (template_version st) e
      = Ok (pm, e')
    ∧ ∀ k, params_of st' !! k
           = match e' !! k with
             | Some v => Some v
             | None => params_of st !! k
             end.
Proof.
  intros Hlast Heq Hrun.
  destruct (user_turn_fields _ _ _ Hlast Hrun)
    as (e & pm & e' & He & Hd & _ & _ & Hp & _).
  rewrite Heq in He, Hd. exists e, pm, e'. split; [done|]. split; [done|].
  intros k. unfold switch_template in Hp. rewrite Heq, Z.eqb_refl in Hp.
  simpl in Hp. unfold params_of at 1. rewrite Hp. simpl.
  rewrite lookup_union. by destruct (e' !! k), (params_of st !! k).
Qed.

Lemma user_turn_keeps_parameters_witness :
  ∃ st',
    user_turn (session "the price is $7" "READY_TO_GENERATE" listing 1) = Ok st'
    ∧ params_of st' !! "image_url" = Some "https://www.x.com/a.jpg"
    ∧ params_of st' !! "property_price" = Some "$7".
Proof.
  assert (∃ st',
            user_turn (session "the price is $7" "READY_TO_GENERATE" listing 1) = Ok st') as [st' Hrun]
    by (eexists; vm_compute; reflexivity).
  exists st'. split; [exact Hrun|].
  destruct (user_turn_keeps_parameters
              (session "the price is $7" "READY_TO_GENERATE" listing 1) st'
              "the price is $7" eq_refl)
    with (2 := Hrun) as (e & pm & e' & He & Hd & Hk);
    [vm_compute; reflexivity|].
  vm_compute in He. apply Ok_inj in He as <-.
  vm_compute in Hd. injection Hd as <- <-.
  split; rewrite Hk; reflexivity.
Defined.

Lemma switch_template_same p st :
  template_version st = p → switch_template p st = st.
Proof. intros <-. unfold switch_template. by rewrite Z.eqb_refl. Qed.

Lemma params_changed_merged (e x : gmap string string) :
  params_changed (e ∪ x) e = false.
Proof.
  unfold params_changed. apply not_true_iff_false. intros H.
  apply existsb_exists in H as [[k v] [Hin H]].
  apply list_elem_of_In, elem_of_map_to_list in Hin. simpl in H.
  rewrite (lookup_union_Some_l _ _ _ _ Hin) in H.
  by rewrite String.eqb_refl in H.
Qed.

Lemma force_condition_unchanged r u pm s :
  force_condition r u false pm s = pm.
Proof. unfold force_condition. by rewrite andb_false_r. Qed.

Lemma force_condition_price r u ch s : force_condition r u ch true s = true.
Proof. unfold force_condition. by rewrite orb_true_r. Qed.

(** The flag and the generation result after [user_turn]. *)
Lemma user_turn_flags (st st' : AgentState) (content : string) e pm e' :
  last (human_messages st) = Some content →
  user_turn st = Ok st' →
  extract_template_params content (extract_template_preference content)
  = Ok e →
  direct_price_modification (chars_of content)
    (extract_template_preference content) e = Ok (pm, e') →
  let c := force_condition (is_regeneration_request (chars_of content))
             (is_url_request (chars_of content))
             (params_changed
                (params_of (switch_template
                              (extract_template_preference content) st)) e')
             pm
             (status (switch_template
                        (extract_template_preference content) st)) in
  force_generation st'
  = force_generation st || c
    || (complete st' && (is_regeneration_request (chars_of content) || pm))
  ∧ generation_result st' = (if c then None else generation_result st).
Proof.
  intros Hlast Hrun He Hd. cbv zeta.
  destruct (user_turn_run _ _ _ Hlast Hrun) as (e0 & pm0 & e0' & He0 & Hd0 & ->).
  rewrite He in He0. apply Ok_inj in He0 as <-.
  rewrite Hd in Hd0. injection Hd0 as <- <-.
  set (r := is_regeneration_request _).
  set (st1 := switch_template _ st).
  set (c := force_condition _ _ _ _ _).
  destruct (update_status_frame r pm (force_regeneration c (merge_params e' st1)))
    as (Hp & Hv & Hg & _).
  destruct (force_regeneration_frame c (merge_params e' st1))
    as (_ & Hv2 & _ & _ & Hg2).
  destruct (merge_params_frame e' st1) as (_ & Hv3 & Hg3 & _).
  assert (template_version (force_regeneration c (merge_params e' st1))
          = extract_template_preference content) as Hpref.
  { rewrite Hv2, Hv3. apply switch_template_version. }
  assert (complete (update_status r pm (force_regeneration c (merge_params e' st1)))
          = complete (force_regeneration c (merge_params e' st1))) as Hc.
  { unfold complete, params_of. by rewrite Hp, Hv. }
  split.
  - rewrite update_status_force, Hc.
    + rewrite force_regeneration_force, merge_params_force.
      unfold st1. by rewrite switch_template_force.
    + rewrite Hpref. apply extract_template_preference_range.
    + intros ->. rewrite Hpref.
      by eapply direct_price_modification_version.
  - rewrite Hg, Hg2, Hg3. unfold st1. by rewrite switch_template_result.
Qed.

(** X4. Processing the same message a second time changes nothing: the
    state [user_turn] returns is a fixed point of [user_turn]. *)
Theorem user_turn_idempotent (st st' : AgentState) :
  user_turn st = Ok st' → user_turn st' = Ok st'.
Proof.
  intros Hrun.
  destruct (last (human_messages st)) as [content|] eqn:Hlast;
    [|unfold user_turn in Hrun; rewrite Hlast in Hrun;
      apply Ok_inj in Hrun as <-; unfold user_turn; by rewrite Hlast].
  destruct (user_turn_fields _ _ _ Hlast Hrun)
    as (e & pm & e' & He & Hd & Hm & Hv & Hp & Hs).
  destruct (user_turn_flags _ _ _ _ _ _ Hlast Hrun He Hd) as [Hf Hg].
  assert (last (human_messages st') = Some content) as Hlast'
    by (unfold human_messages; by rewrite Hm).
  rewrite (user_turn_build st' content e pm e' Hlast' He Hd).
  rewrite (switch_template_same _ _ Hv). f_equal.
  set (P1 := params_of (switch_template _ st)) in *.
  set (s1 := status (switch_template _ st)) in *.
  set (r := is_regeneration_request _) in *.
  set (u := is_url_request _) in *.
  set (c1 := force_condition r u (params_changed P1 e') pm s1) in *.
  assert (params_of st' = e' ∪ P1) as HP by (unfold params_of; by rewrite Hp).
  rewrite HP, params_changed_merged, force_condition_unchanged.
  destruct (update_status_frame r pm (force_regeneration pm (merge_params e' st')))
    as (Hp' & Hv' & Hg' & Hm').
  destruct (force_regeneration_frame pm (merge_params e' st'))
    as (Hp2 & Hv2 & Hs2 & Hm2 & Hg2).
  destruct (merge_params_frame e' st') as (Hp3 & Hv3 & Hg3 & Hm3).
  assert (1 ≤ template_version (force_regeneration pm (merge_params e' st')) ≤ 3)
    as Hrange.
  { rewrite Hv2, Hv3, Hv. apply extract_template_preference_range. }
  assert (e' ∪ (e' ∪ P1) = e' ∪ P1) as Hunion
    by (by rewrite (assoc_L (∪)), (idemp_L (∪))).
  assert (complete (force_regeneration pm (merge_params e' st')) = complete st')
    as Hc.
  { unfold complete, params_of. by rewrite Hp2, Hp3, Hv2, Hv3, HP, Hunion, Hp. }
  assert (pm = true → c1 = true) as Hpm
    by (intros ->; apply force_condition_price).
  apply state_eq.
  - by rewrite Hm', Hm2, Hm3.
  - rewrite update_status_status, Hc, Hs2, merge_params_status by done.
    rewrite Hs. by destruct (complete st').
  - by rewrite Hp', Hp2, Hp3, HP, Hunion, Hp.
  - rewrite Hg', Hg2, Hg3, Hg. destruct pm; [by rewrite Hpm|done].
  - by rewrite Hv', Hv2, Hv3.
  - rewrite update_status_force, Hc; [|done|].
    + rewrite force_regeneration_force, merge_params_force, Hf.
      destruct pm; [rewrite Hpm by done|];
        by destruct (force_generation st), c1, (complete st'), r.
    + intros ->. rewrite Hv2, Hv3, Hv.
      by eapply direct_price_modification_version.
Qed.

Lemma user_turn_idempotent_witness :
  ∃ st',
    user_turn (session "make the price $7" "READY_TO_GENERATE" listing 1)
    = Ok st'
    ∧ user_turn st' = Ok st'.
Proof.
  assert (∃ st',
            user_turn (session "make the price $7" "READY_TO_GENERATE" listing 1)
            = Ok st') as [st' Hrun]
    by (eexists; vm_compute; reflexivity).
  exists st'. split; [exact Hrun|].
  exact (user_turn_idempotent _ st' Hrun).
Defined.

(** ** One cycle of the graph *)

Lemma check_requirements_frame st :
  check_requirements st = set_status (status (check_requirements st)) st
  ∧ (status (check_requirements st) = "COLLECTING_INFO"
     ∨ status (check_requirements st) = "READY_TO_GENERATE").
Proof.
  unfold check_requirements.
  destruct (template_params st); [|split; [done | by left]].
  destruct (force_generation st); [split; [done | by right]|].
  destruct (List.filter _ _); (split; [done|]); [by right | by left].
Qed.

Lemma check_requirements_fields st :
  template_params (check_requirements st) = template_params st
  ∧ template_version (check_requirements st) = template_version st
  ∧ messages (check_requirements st) = messages st
  ∧ generation_result (check_requirements st) = generation_result st.
Proof.
  unfold check_requirements.
  destruct (template_params st) eqn:E; [|by simpl].
  destruct (force_generation st); [by simpl|].
  by destruct (List.filter _ _).
Qed.

Lemma check_requirements_ready st p :
  template_params st = Some p →
  1 ≤ template_version st ≤ 3 →
  complete st = true →
  status (check_requirements st) = "READY_TO_GENERATE".
Proof.
  intros Hp Hv Hc. unfold check_requirements. rewrite Hp.
  destruct (force_generation st); [done|].
  rewrite (required_params_catalogue _ Hv).
  assert (List.filter (fun param => negb (has_key param p))
            (required_elements (template_version st)) = []) as ->; [|done].
  apply missing_none. intros k Hk. apply has_key_is_Some.
  unfold complete, params_of in Hc. rewrite Hp in Hc. simpl in Hc.
  rewrite forallb_forall in Hc. apply Hc. by apply list_elem_of_In.
Qed.

(** The three ways in which [generate_template] returns. *)
Lemma generate_template_cases invoke (s s' : AgentState) :
  generate_template invoke s = Ok s' →
  ∃ p,
    template_params s = Some p
    ∧ (((p !! "image_url" = None ∨ p !! "image_url" = Some "")
        ∧ s' = set_status "COLLECTING_INFO" (append_message missing_url_note s))
       ∨ (∃ u r, p !! "image_url" = Some u ∧ u ≠ ""
                 ∧ invoke (template_version s) p = inr r
                 ∧ s' = set_status "TEMPLATE_GENERATED"
                          (set_generation_result (Some r) s))
       ∨ (∃ u e, p !! "image_url" = Some u ∧ u ≠ ""
                 ∧ invoke (template_version s) p = inl e
                 ∧ s' = set_status "COLLECTING_INFO"
                          (append_message (error_note e) s))).
Proof.
  unfold generate_template.
  destruct (template_params s) as [p|]; [|discriminate].
  intros H. exists p. split; [done|]. unfold has_key in H.
  destruct (p !! "image_url") as [u|] eqn:Hu; simpl in H.
  - destruct (String.eqb_spec u "") as [->|Hne].
    + left. apply Ok_inj in H as <-. split; [by right | done].
    + right. destruct (invoke (template_version s) p) as [e|r] eqn:Hi;
        apply Ok_inj in H as <-.
      * right. by exists u, e.
      * left. by exists u, r.
  - left. apply Ok_inj in H as <-. split; [by left | done].
Qed.

(** The course of one cycle: the Turn Processor, the Requirement
    Checker, the Template Generator when routed there, the reply. *)
Lemma turn_course invoke llm (prompt : string) (st st' : AgentState) :
  turn invoke llm prompt st = Ok st' →
  ∃ s1 s3,
    user_turn (append_message (HumanMessage prompt) st) = Ok s1
    ∧ st' = ai_turn llm s3
    ∧ ((wants_generation (check_requirements s1) = false
        ∧ s3 = check_requirements s1)
       ∨ (wants_generation (check_requirements s1) = true
          ∧ generate_template invoke (check_requirements s1) = Ok s3)).
Proof.
  unfold turn, run_graph.
  destruct (user_turn _) as [s1|]; cbn [bind]; [|discriminate].
  destruct (wants_generation (check_requirements s1)) eqn:Hw.
  - destruct (generate_template invoke _) as [s3|] eqn:Hg; cbn [bind];
      [|discriminate].
    intros H. apply Ok_inj in H as <-. exists s1, s3.
    split; [done|]. split; [done|]. by right.
  - cbn [bind]. intros H. apply Ok_inj in H as <-.
    exists s1, (check_requirements s1). split; [done|]. split; [done|]. by left.
Qed.

(** X5. A completed cycle never ends in READY_TO_GENERATE, nor in the
    initial status: a session that is ready is sent to the Template
    Generator in the same cycle, so the status at the end is
    COLLECTING_INFO or TEMPLATE_GENERATED. *)
Theorem cycle_ends_collecting_or_generated invoke llm (prompt : string)
    (st st' : AgentState) :
  turn invoke llm prompt st = Ok st' →
  status st' = "COLLECTING_INFO" ∨ status st' = "TEMPLATE_GENERATED".
Proof.
  intros H. apply turn_course in H as (s1 & s3 & _ & -> & [[Hw ->]|[_ Hg]]).
  - simpl. destruct (check_requirements_frame s1) as [_ [Hc|Hr]]; [by left|].
    unfold wants_generation in Hw. rewrite Hr in Hw. discriminate Hw.
  - apply generate_template_cases in Hg
      as (p & _ & [[_ ->]|[(u & r & _ & _ & _ & ->)|(u & e & _ & _ & _ & ->)]]);
      simpl; auto.
Qed.

Lemma cycle_ends_collecting_or_generated_witness :
  ∃ st',
    turn render_ok reply_ok "www.x.com/a.jpg for $5" get_initial_state = Ok st'
    ∧ (status st' = "COLLECTING_INFO" ∨ status st' = "TEMPLATE_GENERATED").
Proof.
  assert (∃ st',
            turn render_ok reply_ok "www.x.com/a.jpg for $5" get_initial_state
            = Ok st') as [st' Hrun]
    by (eexists; vm_compute; reflexivity).
  exists st'. split; [exact Hrun|].
  exact (cycle_ends_collecting_or_generated _ _ _ _ _ Hrun).
Defined.

Lemma user_turn_after_message (prompt : string) (st s1 : AgentState) :
  user_turn (append_message (HumanMessage prompt) st) = Ok s1 →
  ∃ p, template_params s1 = Some p ∧ 1 ≤ template_version s1 ≤ 3
       ∧ messages s1 = messages st ++ [HumanMessage prompt].
Proof.
  intros H.
  destruct (user_turn_fields _ _ _ (last_human_appended prompt st) H)
    as (e & pm & e' & _ & _ & Hm & Hv & Hp & _).
  eexists. split; [exact Hp|]. split; [|done].
  rewrite Hv. apply extract_template_preference_range.
Qed.

(** X6. A cycle that ends in TEMPLATE_GENERATED has called the rendering
    service in that cycle, with the template and the parameters the
    session now holds, and the stored result is the answer to that call:
    a result is never carried over from an earlier cycle under this
    status. *)
Theorem generated_means_rendered_this_cycle invoke llm (prompt : string)
    (st st' : AgentState) :
  turn invoke llm prompt st = Ok st' →
  status st' = "TEMPLATE_GENERATED" →
  ∃ p u r,
    template_params st' = Some p
    ∧ p !! "image_url" = Some u ∧ u ≠ ""
    ∧ invoke (template_version st') p = inr r
    ∧ generation_result st' = Some r.
Proof.
  intros H Hs. apply turn_course in H as (s1 & s3 & _ & -> & [[Hw ->]|[_ Hg]]).
  - exfalso. simpl in Hs.
    destruct (check_requirements_frame s1) as [_ [Hc|Hr]]; congruence.
  - apply generate_template_cases in Hg
      as (p & Hp & [[_ ->]|[(u & r & Hu & Hne & Hi & ->)|(u & e & _ & _ & _ & ->)]]);
      simpl in Hs; try discriminate Hs.
    exists p, u, r. simpl. done.
Qed.

Lemma generated_means_rendered_this_cycle_witness :
  ∃ st',
    turn render_ok reply_ok "www.x.com/a.jpg for $5" get_initial_state = Ok st'
    ∧ generation_result st'
      = Some {[ "url" := "https://img.example/poster.png" ]}.
Proof.
  assert (∃ st',
            turn render_ok reply_ok "www.x.com/a.jpg for $5" get_initial_state
            = Ok st') as [st' Hrun]
    by (eexists; vm_compute; reflexivity).
  exists st'. split; [exact Hrun|].
  destruct (generated_means_rendered_this_cycle _ _ _ _ _ Hrun)
    as (p & u & r & _ & _ & _ & Hi & Hg).
  - vm_compute in Hrun. by apply Ok_inj in Hrun as <-.
  - rewrite Hg. unfold render_ok in Hi. by injection Hi as <-.
Defined.

(** X7. There is no guard against rendering again: whenever a completed
    cycle leaves the session with every required parameter of its
    template, and a non-empty image URL, the rendering service was
    called in that cycle, whatever the message said; its answer decides
    the status and, on success, is the stored result. *)
Theorem complete_session_renders_every_cycle invoke llm (prompt : string)
    (st st' : AgentState) :
  turn invoke llm prompt st = Ok st' →
  complete st' = true →
  params_of st' !! "image_url" ≠ Some "" →
  match invoke (template_version st') (params_of st') with
  | inr r =>
      status st' = "TEMPLATE_GENERATED" ∧ generation_result st' = Some r
  | inl e =>
      status st' = "COLLECTING_INFO" ∧ error_note e ∈ messages st'
  end.
Proof.
  intros H Hc Hurl.
  apply turn_course in H as (s1 & s3 & H1 & -> & Hcases).
  apply user_turn_after_message in H1 as (p & Hp & Hv & _).
  destruct (check_requirements_fields s1) as (Hp2 & Hv2 & _ & _).
  rewrite Hp in Hp2.
  assert (complete s1 = true → status (check_requirements s1) = "READY_TO_GENERATE")
    as Hready by (by apply (check_requirements_ready _ p)).
  assert (is_Some (p !! "image_url") ∨ complete s1 = false) as Hurl1.
  { destruct (complete s1) eqn:E; [left|by right].
    apply has_key_is_Some. unfold complete, params_of in E.
    rewrite Hp in E. simpl in E. rewrite forallb_forall in E.
    apply E. apply list_elem_of_In.
    assert (template_version s1 = 1 ∨ template_version s1 = 2
            ∨ template_version s1 = 3) as [->|[->| ->]] by lia; by left. }
  set (s2 := check_requirements s1) in *.
  destruct Hcases as [[Hw ->]|[_ Hg]].
  - exfalso. unfold complete, params_of in Hc. simpl in Hc.
    rewrite Hp2, Hv2 in Hc.
    assert (complete s1 = true) as Hc1
      by (unfold complete, params_of; by rewrite Hp).
    unfold wants_generation in Hw. by rewrite (Hready Hc1) in Hw.
  - apply generate_template_cases in Hg
      as (q & Hq & [[Hno ->]|[(u & r & _ & _ & Hi & ->)|(u & e & _ & _ & Hi & ->)]]);
      rewrite Hp2 in Hq; apply (inj Some) in Hq as <-;
      unfold complete, params_of in Hc, Hurl |- *; simpl in Hc, Hurl |- *;
      rewrite Hp2 in Hc, Hurl |- *; simpl in Hc, Hurl |- *.
    + exfalso. rewrite Hv2 in Hc.
      assert (complete s1 = true) as Hc1
        by (unfold complete, params_of; by rewrite Hp).
      destruct Hurl1 as [[x Hx]|Hf]; [|congruence].
      destruct Hno as [Hno|Hno]; congruence.
    + by rewrite Hi.
    + rewrite Hi. split; [done|].
      apply elem_of_app. left. apply elem_of_app. right. by left.
Qed.

Lemma complete_session_renders_every_cycle_witness :
  ∃ st',
    turn render_ok reply_ok "what a nice day"
      (mkState [] "TEMPLATE_GENERATED" (Some listing)
         (Some {[ "url" := "https://old.example/poster.png" ]}) 1 false)
    = Ok st'
    ∧ status st' = "TEMPLATE_GENERATED"
    ∧ generation_result st'
      = Some {[ "url" := "https://img.example/poster.png" ]}.
Proof.
  assert (∃ st',
            turn render_ok reply_ok "what a nice day"
              (mkState [] "TEMPLATE_GENERATED" (Some listing)
                 (Some {[ "url" := "https://old.example/poster.png" ]}) 1 false)
            = Ok st') as [st' Hrun]
    by (eexists; vm_compute; reflexivity).
  exists st'. split; [exact Hrun|].
  pose proof (complete_session_renders_every_cycle _ _ _ _ _ Hrun) as H.
  assert (st' = ai_turn reply_ok
                  (mkState [HumanMessage "what a nice day"] "TEMPLATE_GENERATED"
                     (Some listing)
                     (Some {[ "url" := "https://img.example/poster.png" ]})
                     1 false)) as Hst
    by (vm_compute in Hrun; by apply Ok_inj in Hrun as <-).
  rewrite Hst in H |- *. apply H; [reflexivity|discriminate].
Defined.

(** X8. The history only grows, and by a fixed shape: a completed cycle
    adds the user message, at most one error note of the Template
    Generator, and the reply, in this order, after what was there. *)
Theorem history_is_append_only invoke llm (prompt : string)
    (st st' : AgentState) :
  turn invoke llm prompt st = Ok st' →
  ∃ notes reply,
    messages st'
    = messages st ++ [HumanMessage prompt] ++ notes ++ [AIMessage reply]
    ∧ (notes = [] ∨ ∃ note, notes = [SystemMessage note]).
Proof.
  intros H. apply turn_course in H as (s1 & s3 & H1 & -> & Hcases).
  apply user_turn_after_message in H1 as (p & _ & _ & Hm).
  destruct (check_requirements_frame s1) as [Hfr _].
  destruct Hcases as [[_ ->]|[_ Hg]].
  - exists [], (llm (check_requirements s1)). split; [|by left].
    simpl. rewrite Hfr at 1. simpl. by rewrite Hm, <- app_assoc.
  - apply generate_template_cases in Hg
      as (q & _ & [[_ ->]|[(u & r & _ & _ & _ & ->)|(u & e & _ & _ & _ & ->)]]).
    + eexists [missing_url_note], _. split; [|right; by eexists].
      simpl. rewrite Hfr at 1. simpl. by rewrite Hm, <- !app_assoc.
    + eexists [], _. split; [|by left].
      simpl. rewrite Hfr at 1. simpl. by rewrite Hm, <- !app_assoc.
    + eexists [error_note e], _. split.
      * simpl. rewrite Hfr at 1. simpl. by rewrite Hm, <- !app_assoc.
      * right. unfold error_note. destruct (_ && _); by eexists.
Qed.

Lemma history_is_append_only_witness :
  ∃ st',
    turn render_fails reply_ok "www.x.com/a.jpg for $5" get_initial_state
    = Ok st'
    ∧ messages st'
      = messages get_initial_state
        ++ [HumanMessage "www.x.com/a.jpg for $5";
            SystemMessage "Error generating template: service unavailable";
            AIMessage "ok"].
Proof.
  assert (∃ st',
            turn render_fails reply_ok "www.x.com/a.jpg for $5"
              get_initial_state = Ok st') as [st' Hrun]
    by (eexists; vm_compute; reflexivity).
  exists st'. split; [exact Hrun|].
  destruct (history_is_append_only _ _ _ _ _ Hrun) as (notes & reply & Hm & _).
  vm_compute in Hrun. by apply Ok_inj in Hrun as <-.
Defined.

(** ** Where the Turn Processor can fail *)



















Lemma generate_template_returns invoke (s : AgentState) p :
  template_params s = Some p → ∃ s', generate_template invoke s = Ok s'.
Proof.
  intros Hp. unfold generate_template. rewrite Hp.
  destruct (_ || _); [by eexists|].
  destruct (invoke _ _); by eexists.
Qed.






(** ** What every session keeps *)

Lemma chars_of_str (s : chars) : chars_of (str s) = s.
Proof. apply list_ascii_of_string_of_list_ascii. Qed.

Lemma lower_app (a b : chars) : lower (a ++ b) = lower a ++ lower b.
Proof. apply map_app. Qed.

Lemma image_url_http (w : chars) (g : list chars) :
  Matches true re_image_url w g →
  starts_with (chars_of "http") (lower w) = true.
Proof.
  intros H. apply Matches_Grp_inv in H as (g' & _ & H).
  apply Matches_Seq_inv in H as (w1 & g1 & w2 & g2 & -> & _ & H1 & _).
  apply Matches_Lit_inv in H1 as [_ H1]. apply same_char_lower in H1.
  rewrite lower_app, H1. apply starts_with_app.
Qed.

Lemma first_image_rule_http (t : chars) (u : string) :
  first_image_rule t = Some u →
  starts_with (chars_of "http") (lower (chars_of u)) = true.
Proof.
  unfold first_image_rule.
  destruct (re_search IGNORECASE re_image_url t) as [[w g]|] eqn:E.
  - intros [= <-]. apply re_search_Some in E as (pre & post & _ & Hm & _).
    cbn [group fst]. rewrite chars_of_str. by apply (image_url_http w g).
  - destruct (re_search IGNORECASE re_www_url t) as [m|].
    + by intros [= <-].
    + destruct (re_search IGNORECASE re_general_url t) as [m|]; [|done].
      by intros [= <-].
Qed.

Lemma price_of_match_dollar (m : rmatch) (v : string) :
  price_of_match m = Ok v → starts_with (chars_of "$") (chars_of v) = true.
Proof.
  unfold price_of_match.
  destruct (int_float _) as [z|[]]; intros H; try discriminate H;
    apply Ok_inj in H as <-; by rewrite chars_of_str.
Qed.

Lemma extract_price_dollar t (p q : gmap string string) (v : string) :
  extract_price t p = Ok q → q !! "property_price" = Some v →
  p !! "property_price" = Some v
  ∨ starts_with (chars_of "$") (chars_of v) = true.
Proof.
  unfold extract_price. intros H Hv.
  destruct (re_search IGNORECASE re_price_modification t) as [m|].
  - destruct (price_of_match m) as [x|] eqn:Hm; [|discriminate].
    apply Ok_inj in H as <-. rewrite lookup_insert_eq in Hv.
    injection Hv as <-. right. by apply (price_of_match_dollar m).
  - destruct (match re_search NOFLAGS re_dollar t with
              | Some m => Some m
              | None => re_search IGNORECASE re_price_word t
              end) as [m|].
    + destruct (price_of_match m) as [x|] eqn:Hm; [|discriminate].
      apply Ok_inj in H as <-. rewrite lookup_insert_eq in Hv.
      injection Hv as <-. right. by apply (price_of_match_dollar m).
    + apply Ok_inj in H as <-. by left.
Qed.

Lemma price_not_later v : v ≠ 1 → "property_price" ∉ later_keys v.
Proof.
  intros Hv. unfold later_keys, customizable_elements.
  destruct (Z.eqb_spec v 3) as [->|]; [|destruct (Z.eqb_spec v 1); [done|];
                                          destruct (v =? 2)];
    simpl; intros H;
    repeat (apply elem_of_cons in H as [H|H]; [discriminate H|]);
    by apply not_elem_of_nil in H.
Qed.

Lemma extraction_well_formed (content : string) (v : Z)
    (e : gmap string string) :
  extract_template_params content v = Ok e →
  (∀ u, e !! "image_url" = Some u →
        starts_with (chars_of "http") (lower (chars_of u)) = true)
  ∧ (∀ x, e !! "property_price" = Some x →
          starts_with (chars_of "$") (chars_of x) = true).
Proof.
  intros He. split.
  - intros u.
    rewrite (extract_template_params_frame _ _ _ _ He (image_url_not_later v)),
      extract_image_url_lookup.
    apply first_image_rule_http.
  - intros x Hx. destruct (decide (v = 1)) as [->|Hv].
    + apply template1_price in He as (q & Hq & Hl). rewrite Hl in Hx.
      destruct (extract_price_dollar _ _ _ _ Hq Hx) as [Hp|Hp]; [|done].
      by rewrite extract_image_url_frame in Hp.
    + rewrite (extract_template_params_frame _ _ _ _ He (price_not_later v Hv))
        in Hx.
      by rewrite extract_image_url_frame in Hx.
Qed.

Lemma direct_price_modification_dollar t v (e e' : gmap string string) pm :
  direct_price_modification t v e = Ok (pm, e') →
  (∀ k, k ≠ "property_price" → e' !! k = e !! k)
  ∧ (∀ x, e' !! "property_price" = Some x →
          e !! "property_price" = Some x
          ∨ starts_with (chars_of "$") (chars_of x) = true).
Proof.
  unfold direct_price_modification.
  destruct (v =? 1); [|intros [= <- <-]; split; [done|by left]].
  destruct (re_search IGNORECASE re_direct_price t) as [m|];
    [|intros [= <- <-]; split; [done|by left]].
  cbv zeta. destruct (int_float _) as [z|[]]; intros H; try discriminate H;
    apply Ok_inj in H; pose proof (f_equal snd H) as H2; cbn [snd] in H2;
    subst e'.
  - split; [intros k Hk; by apply lookup_insert_ne|].
    intros x. rewrite lookup_insert_eq. intros Hx. right.
    assert (x = str (format_price z)) as -> by congruence.
    by rewrite chars_of_str.
  - split; [done|by left].
Qed.

Lemma switch_template_lookup p (st : AgentState) k (x : string) :
  params_of (switch_template p st) !! k = Some x → params_of st !! k = Some x.
Proof.
  unfold switch_template. destruct (negb _); [|done].
  unfold params_of. simpl. by rewrite lookup_empty.
Qed.

Lemma user_turn_well_formed (st st' : AgentState) (content : string) :
  last (human_messages st) = Some content →
  user_turn st = Ok st' →
  well_formed st → well_formed st'.
Proof.
  intros Hlast Hrun (_ & Hu & Hp).
  destruct (user_turn_fields st st' content Hlast Hrun)
    as (e & pm & e' & He & Hd & _ & Hv & Hpar & _).
  apply extraction_well_formed in He as [Heu Hep].
  apply direct_price_modification_dollar in Hd as [Hdk Hdp].
  split; [rewrite Hv; apply extract_template_preference_range|].
  unfold params_of at 1 2. rewrite Hpar. cbn [default].
  split.
  - intros u Hl. apply lookup_union_Some_raw in Hl as [Hl|[_ Hl]].
    + rewrite Hdk in Hl by done. by apply Heu.
    + apply switch_template_lookup in Hl. by apply Hu.
  - intros x Hl. apply lookup_union_Some_raw in Hl as [Hl|[_ Hl]].
    + destruct (Hdp x Hl) as [Hx|Hx]; [by apply Hep|done].
    + apply switch_template_lookup in Hl. by apply Hp.
Qed.

Lemma turn_parameters invoke llm (prompt : string) (st st' : AgentState) :
  turn invoke llm prompt st = Ok st' →
  ∃ s1, user_turn (append_message (HumanMessage prompt) st) = Ok s1
        ∧ template_params st' = template_params s1
        ∧ template_version st' = template_version s1.
Proof.
  intros H. apply turn_course in H as (s1 & s3 & H1 & -> & [[_ ->]|[_ Hg]]);
    exists s1; (split; [exact H1|]);
    destruct (check_requirements_fields s1) as (Hp & Hv & _).
  - by split.
  - apply generate_template_cases in Hg
      as (p & _ & [[_ ->]|[(u & r & _ & _ & _ & ->)|(u & e & _ & _ & _ & ->)]]);
      by split.
Qed.

Lemma turn_well_formed invoke llm (prompt : string) (st st' : AgentState) :
  turn invoke llm prompt st = Ok st' → well_formed st → well_formed st'.
Proof.
  intros H Hw. apply turn_parameters in H as (s1 & H1 & Hp & Hv).
  assert (well_formed s1) as (H1v & H1u & H1p).
  { apply (user_turn_well_formed _ _ prompt (last_human_appended prompt st) H1).
    exact Hw. }
  unfold well_formed, params_of in *. rewrite Hp, Hv.
  split; [exact H1v|]. split; [exact H1u|exact H1p].
Qed.

(** X11. Every session that starts well formed stays so, whatever the
    messages and whatever the rendering service and the language model
    answer: the template is 1, 2 or 3, a stored image URL begins with
    [http], and so is never empty, and a stored price begins with the
    dollar sign. *)
Theorem sessions_stay_well_formed
    (invoke : Z → gmap string string → string + gmap string string)
    (llm : AgentState → string) (prompts : list string)
    (st st' : AgentState) :
  well_formed st →
  turns invoke llm prompts st = Ok st' →
  well_formed st'.
Proof.
  revert st. induction prompts as [|p prompts IH]; intros st Hw;
    cbn [turns].
  - by intros [= <-].
  - destruct (turn invoke llm p st) as [s|] eqn:Hs; cbn [bind]; [|discriminate].
    apply IH. by apply (turn_well_formed invoke llm p st).
Qed.

Lemma initial_state_well_formed : well_formed get_initial_state.
Proof. split; [done|]. split; intros x Hx; by vm_compute in Hx. Qed.

Lemma sessions_stay_well_formed_witness :
  well_formed get_initial_state
  ∧ ∃ st',
      turns render_ok reply_ok
        ["www.x.com/a.jpg for $5"; "set the price to 12500"]
        get_initial_state = Ok st'
      ∧ well_formed st'.
Proof.
  split; [exact initial_state_well_formed|].
  assert (∃ st',
            turns render_ok reply_ok
              ["www.x.com/a.jpg for $5"; "set the price to 12500"]
              get_initial_state = Ok st') as [st' Hrun]
    by (eexists; vm_compute; reflexivity).
  exists st'. split; [exact Hrun|].
  exact (sessions_stay_well_formed render_ok reply_ok _ _ st'
           initial_state_well_formed Hrun).
Defined.

(** ** A formatted price read back *)

Lemma same_char_letter ic c x :
  same_char ic c x = true → is_letter x = is_letter c.
Proof.
  unfold same_char, is_letter, eqc. destruct ic; intros H.
  - apply Ascii.eqb_eq in H. by rewrite H.
  - apply Ascii.eqb_eq in H. by rewrite H.
Qed.

Lemma needs_letter_spec ic r w g :
  needs_letter r = true → Matches ic r w g → existsb is_letter w = true.
Proof.
  intros Hr H. induction H as [l w HF| | | | | | | |r1 r2 w1 g1 w2 g2 _ IH1 _ IH2|];
    cbn [needs_letter] in Hr; try discriminate Hr.
  - revert Hr. induction HF as [|c x l' w' Hc _ IH]; cbn [existsb]; [done|].
    rewrite (same_char_letter _ _ _ Hc).
    destruct (is_letter c); [done|]. apply IH.
  - apply andb_true_iff in Hr as [Hr _]. by apply IHMatches.
  - apply andb_true_iff in Hr as [_ Hr]. by apply IHMatches.
  - rewrite existsb_app. apply orb_true_iff.
    apply orb_true_iff in Hr as [Hr|Hr]; [left; by apply IH1 | right; by apply IH2].
  - by apply IHMatches.
Qed.

Lemma search_letterless ic r (t : chars) :
  needs_letter r = true → existsb is_letter t = false →
  re_search ic r t = None.
Proof.
  intros Hr Ht. apply re_search_None. intros (pre & w & g & post & -> & Hm).
  rewrite !existsb_app, (needs_letter_spec ic r w g Hr Hm) in Ht.
  by rewrite orb_true_r in Ht.
Qed.

Lemma findall_letterless ic r :
  needs_letter r = true →
  ∀ (s : chars) skip, existsb is_letter s = false → findall_from ic r skip s = [].
Proof.
  intros Hr. induction s as [|x s IH]; intros skip Hs.
  - destruct skip; cbn [findall_from]; [|done].
    destruct (first_match ic r []) as [[w g]|] eqn:E; [|done].
    apply first_match_Some in E as (rest & Hw & Hm).
    symmetry in Hw. apply app_eq_nil in Hw as [-> _].
    by apply (needs_letter_spec ic r _ _ Hr) in Hm.
  - assert (existsb is_letter s = false) as Hs'.
    { cbn [existsb] in Hs. by apply orb_false_iff in Hs as [_ ?]. }
    destruct skip; cbn [findall_from]; [|by apply IH].
    destruct (first_match ic r (x :: s)) as [[w g]|] eqn:E; [|by apply IH].
    apply first_match_Some in E as (rest & Hw & Hm).
    apply (needs_letter_spec ic r _ _ Hr) in Hm.
    rewrite Hw, existsb_app, Hm in Hs. discriminate Hs.
Qed.

Lemma starts_with_letter (p s : chars) :
  starts_with p s = true → existsb is_letter p = true →
  existsb is_letter s = true.
Proof.
  revert s. induction p as [|c p IH]; intros s; [done|].
  destruct s as [|x s]; cbn [starts_with existsb]; [done|].
  unfold eqc. destruct (Ascii.eqb_spec c x) as [<-|]; [|done].
  cbn [andb]. intros Hs. destruct (is_letter c); [done|].
  cbn [orb]. by apply IH.
Qed.

Lemma contains_letter (p s : chars) :
  contains p s = true → existsb is_letter p = true →
  existsb is_letter s = true.
Proof.
  intros Hc Hp. induction s as [|x s IH]; cbn [contains] in Hc.
  - rewrite orb_false_r in Hc. by apply (starts_with_letter p).
  - apply orb_true_iff in Hc as [Hc|Hc]; [by apply (starts_with_letter p)|].
    cbn [existsb]. rewrite (IH Hc). apply orb_true_r.
Qed.

Lemma lower_letterless (t : chars) :
  existsb is_letter t = false → existsb is_letter (lower t) = false.
Proof.
  induction t as [|x t IH]; [done|]. cbn [lower map existsb].
  unfold is_letter at 1 3. rewrite lower_char_idem. fold (is_letter x).
  destruct (is_letter x); [done|]. apply IH.
Qed.

Lemma says_letterless (t : chars) (element what : string) :
  existsb is_letter t = false →
  existsb is_letter (chars_of what) = true →
  says t element what = false.
Proof.
  intros Ht Hw. unfold says.
  destruct (contains _ _) eqn:E; [|done].
  apply contains_letter in E.
  - by rewrite (lower_letterless t Ht) in E.
  - rewrite existsb_app, Hw. apply orb_true_r.
Qed.

Lemma adjectives_letterless (t : chars) (l : list (string * string))
    (p : gmap string string) :
  existsb is_letter t = false → fold_left (set_adjective t) l p = p.
Proof.
  intros Ht. revert p. induction l as [|[a c] l IH]; intros p; [done|].
  cbn [fold_left]. rewrite IH. unfold set_adjective.
  rewrite !(says_letterless t a) by (done || reflexivity).
  reflexivity.
Qed.

(** The digits of a number. *)

Lemma digits_of_uint (d : Decimal.uint) :
  forallb is_digit (chars_of (NilEmpty.string_of_uint d)) = true.
Proof. induction d; cbn [NilEmpty.string_of_uint chars_of list_ascii_of_string forallb]; try done. Qed.

Lemma digits_decimal (n : Z) :
  forallb is_digit (decimal n) = true ∧ decimal n ≠ [].
Proof.
  unfold decimal. destruct (N.to_uint (Z.to_N n)) eqn:E;
    cbn [NilZero.string_of_uint]; try (split; [done|discriminate]);
    (split; [apply (digits_of_uint (_ u)) | discriminate]).
Qed.

Lemma digits_value_acc (d : Decimal.uint) (acc : positive) :
  fold_left (fun a c => a * 10 + digit_value c)
    (chars_of (NilEmpty.string_of_uint d)) (Z.pos acc)
  = Z.pos (Pos.of_uint_acc d acc).
Proof.
  revert acc.
  induction d as [|d IH|d IH|d IH|d IH|d IH|d IH|d IH|d IH|d IH|d IH];
    intros acc;
    cbn [NilEmpty.string_of_uint chars_of list_ascii_of_string fold_left
         Pos.of_uint_acc]; [reflexivity|..];
    rewrite <- IH; f_equal; unfold digit_value;
    match goal with
    | |- context [code ?c] =>
        let v := eval vm_compute in (code c) in change (code c) with v
    end; lia.
Qed.

Lemma digits_value_uint (d : Decimal.uint) :
  fold_left (fun a c => a * 10 + digit_value c)
    (chars_of (NilEmpty.string_of_uint d)) 0
  = Z.of_N (Pos.of_uint d).
Proof.
  induction d as [|d IH|d IH|d IH|d IH|d IH|d IH|d IH|d IH|d IH|d IH];
    cbn [NilEmpty.string_of_uint chars_of list_ascii_of_string fold_left
         Pos.of_uint]; [reflexivity|exact IH|..];
    cbn [Z.of_N]; rewrite <- digits_value_acc; f_equal.
Qed.

Lemma digits_value_decimal (n : Z) : 0 ≤ n → digits_value (decimal n) = n.
Proof.
  intros Hn. unfold digits_value, decimal.
  assert (Z.of_N (N.of_uint (N.to_uint (Z.to_N n))) = n) as Hr.
  { rewrite DecimalN.Unsigned.of_to. by apply Z2N.id. }
  destruct (N.to_uint (Z.to_N n)) eqn:E; cbn [NilZero.string_of_uint];
    try (rewrite <- Hr; apply digits_value_uint).
  by rewrite <- Hr.
Qed.

Lemma split_dot_digits (s : chars) :
  forallb is_digit s = true → split_dot s = (s, None).
Proof.
  induction s as [|x s IH]; [done|]. cbn [forallb split_dot].
  intros H. apply andb_true_iff in H as [Hx Hs]. rewrite (IH Hs).
  assert (eqc x "." = false) as ->; [|done].
  unfold eqc. destruct (Ascii.eqb_spec x "."%char) as [->|]; [|done].
  discriminate Hx.
Qed.

Lemma parse_decimal_digits (n : Z) :
  0 ≤ n → parse_decimal (decimal n) = Some (n, 0).
Proof.
  intros Hn. destruct (digits_decimal n) as [Hd Hne].
  unfold parse_decimal. rewrite (split_dot_digits _ Hd), app_nil_r, Hd.
  destruct (decimal n) eqn:E; [done|]. cbn [List.length Nat.eqb negb andb].
  by rewrite <- E, digits_value_decimal.
Qed.

Lemma int_of_float_exact (n : Z) :
  0 ≤ n < 2 ^ 53 → int_of_float n 1 = Some n.
Proof.
  intros Hn. unfold int_of_float.
  destruct (Z.eqb_spec n 0) as [->|Hn0]; [done|].
  assert (0 < n) as Hpos by lia.
  assert (float_exponent n 1 = Z.log2 n) as ->.
  { unfold float_exponent. change (Z.log2 1) with 0. rewrite Z.sub_0_r.
    pose proof (Z.log2_nonneg n) as H0.
    pose proof (Z.log2_spec n Hpos) as [H1 _].
    destruct (Z.leb_spec 0 (Z.log2 n)); [|lia].
    rewrite Z.mul_1_l. set (p := 2 ^ Z.log2 n) in *.
    destruct (Z.ltb_spec n p); [lia|done]. }
  assert (0 ≤ Z.log2 n < 53) as He.
  { split; [apply Z.log2_nonneg|]. apply Z.log2_lt_pow2; lia. }
  cbv zeta. rewrite Z.max_l by lia.
  destruct (Z.leb_spec 0 (Z.log2 n - 52)) as [Hq|Hq].
  - assert (Z.log2 n - 52 = 0) as -> by lia.
    change (1 * 2 ^ 0) with 1. change (2 ^ 0) with 1.
    rewrite Z.div_1_r, Z.mod_1_r. change (2 * 0) with 0.
    change (1 <? 0) with false. change (0 =? 1) with false.
    cbn [orb andb]. rewrite Z.mul_1_r.
    assert (2 ^ 53 < 2 ^ 1024) by (apply Z.pow_lt_mono_r; lia).
    destruct (Z.leb_spec (2 ^ 1024) n); [lia|done].
  - set (k := 2 ^ (- (Z.log2 n - 52))).
    assert (0 < k) by (apply Z.pow_pos_nonneg; lia).
    rewrite Z.div_1_r, Z.mod_1_r. change (2 * 0) with 0.
    change (1 <? 0) with false. change (0 =? 1) with false.
    cbn [orb andb]. f_equal. apply Z.div_mul. lia.
Qed.

Lemma int_float_decimal (n : Z) :
  0 ≤ n < 2 ^ 53 → int_float (decimal n) = Ok n.
Proof.
  intros Hn. unfold int_float. rewrite parse_decimal_digits by lia.
  change (10 ^ 0) with 1. by rewrite int_of_float_exact.
Qed.

(** The commas of a formatted price. *)

Lemma remove_group3 (k : nat) (s : chars) :
  remove_char "," (group3 k s) = remove_char "," s.
Proof.
  revert k. induction s as [|x s IH]; intros k; [done|].
  destruct k; cbn [group3]; unfold remove_char in *;
    cbn [List.filter eqc Ascii.eqb negb]; rewrite IH; reflexivity.
Qed.

Lemma remove_digits (s : chars) :
  forallb is_digit s = true → remove_char "," s = s.
Proof.
  induction s as [|x s IH]; [done|]. cbn [forallb]. intros H.
  apply andb_true_iff in H as [Hx Hs]. unfold remove_char in *.
  cbn [List.filter]. rewrite (IH Hs).
  assert (eqc x "," = false) as ->; [|done].
  unfold eqc. destruct (Ascii.eqb_spec x ","%char) as [->|]; [|done].
  discriminate Hx.
Qed.

Lemma remove_formatted (n : Z) :
  remove_char "," (rev (group3 3 (rev (decimal n)))) = decimal n.
Proof.
  unfold remove_char. rewrite filter_rev.
  fold (remove_char "," (group3 3 (rev (decimal n)))).
  rewrite remove_group3. unfold remove_char.
  rewrite <- filter_rev, rev_involutive.
  apply remove_digits, digits_decimal.
Qed.

Lemma star_from_all (p : ascii → bool) (s : chars) :
  forallb p s = true → ∃ l, star_from p s = (s, []) :: l.
Proof.
  induction s as [|x s IH]; cbn [forallb star_from]; [by eexists|].
  intros H. apply andb_true_iff in H as [-> Hs].
  destruct (IH Hs) as [l ->]. by eexists.
Qed.

Lemma group3_chars (P : ascii → bool) (k : nat) (s : chars) :
  P "," %char = true → forallb P s = true → forallb P (group3 k s) = true.
Proof.
  intros Hc. revert k. induction s as [|x s IH]; intros k; [done|].
  cbn [forallb]. intros H. apply andb_true_iff in H as [Hx Hs].
  destruct k; cbn [group3 forallb]; rewrite ?Hc, Hx, IH; done.
Qed.

Lemma forallb_rev {A : Type} (P : A → bool) (l : list A) :
  forallb P (rev l) = forallb P l.
Proof.
  induction l as [|x l IH]; [done|]. cbn [rev forallb].
  rewrite forallb_app, IH. cbn [forallb]. rewrite andb_true_r. apply andb_comm.
Qed.

Lemma forallb_impl {A : Type} (P Q : A → bool) (l : list A) :
  (∀ x, P x = true → Q x = true) → forallb P l = true → forallb Q l = true.
Proof.
  intros HPQ. induction l as [|x l IH]; [done|]. cbn [forallb].
  intros H. apply andb_true_iff in H as [Hx Hl]. by rewrite (HPQ x Hx), IH.
Qed.

Lemma digit_is_price_char x : is_digit x = true → atom_ok false price_chars x = true.
Proof. intros H. cbn [atom_ok price_chars existsb cls_ok]. by rewrite H. Qed.

Lemma digit_is_no_letter x : is_digit x = true → negb (is_letter x) = true.
Proof. revert x. intros x. all_chars x. Qed.

Lemma none_is_letter (l : chars) :
  forallb (fun x => negb (is_letter x)) l = true → existsb is_letter l = false.
Proof.
  induction l as [|y l IH]; [done|]. cbn [forallb existsb]. intros H.
  apply andb_true_iff in H as [Hy Hl].
  apply negb_true_iff in Hy. rewrite Hy. by apply IH.
Qed.

(** The text of a formatted price: the dollar sign, then a non-empty run
    of digits and commas. *)
Lemma format_price_shape (n : Z) :
  ∃ x body,
    format_price n = "$"%char :: x :: body
    ∧ forallb (atom_ok false price_chars) (x :: body) = true
    ∧ existsb is_letter (format_price n) = false
    ∧ remove_char "," (x :: body) = decimal n.
Proof.
  destruct (digits_decimal n) as [Hd Hne].
  pose proof (remove_formatted n) as Hr.
  assert (forallb (atom_ok false price_chars)
            (rev (group3 3 (rev (decimal n)))) = true) as Hp.
  { rewrite forallb_rev. apply group3_chars; [reflexivity|].
    rewrite forallb_rev. revert Hd. apply forallb_impl, digit_is_price_char. }
  assert (forallb (fun x => negb (is_letter x))
            (rev (group3 3 (rev (decimal n)))) = true) as Hl.
  { rewrite forallb_rev. apply group3_chars; [reflexivity|].
    rewrite forallb_rev. revert Hd. apply forallb_impl, digit_is_no_letter. }
  unfold format_price.
  destruct (rev (group3 3 (rev (decimal n)))) as [|x body] eqn:E.
  { exfalso. apply Hne. rewrite <- Hr. reflexivity. }
  exists x, body. split; [done|]. split; [done|]. split; [|done].
  cbn [existsb]. change (is_letter "$") with false. cbn [orb].
  by apply (none_is_letter (x :: body)).
Qed.

Lemma search_dollar (x : ascii) (body : chars) :
  forallb (atom_ok false price_chars) (x :: body) = true →
  re_search NOFLAGS re_dollar ("$"%char :: x :: body)
  = Some ("$"%char :: x :: body, [x :: body]).
Proof.
  cbn [forallb]. intros H. apply andb_true_iff in H as [Hx Hb].
  destruct (star_from_all _ _ Hb) as [l Hl].
  assert (first_match NOFLAGS re_dollar ("$"%char :: x :: body)
          = Some ("$"%char :: x :: body, [x :: body])) as Hf.
  { unfold first_match, re_dollar, NOFLAGS.
    cbn [ms chars_of list_ascii_of_string lit_match eqc Ascii.eqb Bool.eqb
         no_groups fst snd flat_map map app].
    rewrite Hx, Hl. reflexivity. }
  cbn [re_search]. by rewrite Hf.
Qed.

(** X12. The price the extraction stores is a fixed point of the extraction:
    a message that consists of a formatted price below [2^53] gives back
    that price and nothing else. *)
Theorem formatted_price_reads_back (n : Z) :
  0 ≤ n < 2 ^ 53 →
  extract_template_params (str (format_price n)) 1
  = Ok {[ "property_price" := str (format_price n) ]}.
Proof.
  intros Hn.
  destruct (format_price_shape n) as (x & body & Ht & Hp & Hl & Hr).
  unfold extract_template_params. change (1 =? 1) with true.
  unfold chars_of, str. rewrite list_ascii_of_string_of_list_ascii.
  cbv zeta.
  assert (extract_image_url (format_price n) ∅ = ∅) as ->.
  { unfold extract_image_url.
    rewrite !(search_letterless _ _ (format_price n)) by (reflexivity || done).
    reflexivity. }
  assert (extract_price (format_price n) ∅
          = Ok {[ "property_price" := string_of_list_ascii (format_price n) ]})
    as ->.
  { unfold extract_price.
    rewrite (search_letterless _ re_price_modification) by (reflexivity || done).
    rewrite Ht at 1. rewrite (search_dollar x body Hp).
    unfold price_of_match. cbn [group nth snd]. rewrite Hr.
    rewrite (int_float_decimal n Hn). reflexivity. }
  cbn [bind]. unfold re_findall.
  rewrite !findall_letterless by (reflexivity || done).
  cbn [fold_left]. by rewrite adjectives_letterless.
Qed.

Lemma formatted_price_reads_back_witness :
  0 ≤ 1250000 < 2 ^ 53
  ∧ str (format_price 1250000) = "$1,250,000"
  ∧ extract_template_params "$1,250,000" 1
    = Ok {[ "property_price" := "$1,250,000" ]}.
Proof.
  assert (0 ≤ 1250000 < 2 ^ 53) as Hn by lia.
  split; [exact Hn|]. split; [vm_compute; reflexivity|].
  exact (formatted_price_reads_back 1250000 Hn).
Defined.

(** ** The poster tool *)

Lemma build_layers_writes v url args (d : layers) :
  build_layers v url args d = run_writes (writes v url args) d.
Proof.
  unfold build_layers, writes.
  destruct (v =? 1); [reflexivity|].
  destruct (v =? 2); [reflexivity|].
  destruct (v =? 3); reflexivity.
Qed.

Lemma slot_set_field L F v (d : layers) fs :
  d !! L = Some fs →
  ∀ L' F', slot (<[L := <[F := v]> fs]> d) L' F'
           = if String.eqb L L' && String.eqb F F' then Some v else slot d L' F'.
Proof.
  intros Hd L' F'. unfold slot.
  destruct (String.eqb_spec L L') as [<-|HL]; cbn [andb].
  - rewrite lookup_insert_eq, Hd.
    destruct (String.eqb_spec F F') as [<-|HF].
    + by rewrite lookup_insert_eq.
    + by rewrite lookup_insert_ne.
  - by rewrite lookup_insert_ne.
Qed.

Lemma write_spec (D d : layers) w :
  same_shape D d →
  is_Some (slot D w.1.1 w.1.2) →
  ∃ d', write w d = ROk d' ∧ same_shape D d'
        ∧ ∀ L F, slot d' L F
                 = match (if String.eqb w.1.1 L && String.eqb w.1.2 F
                          then w.2 else None) with
                   | Some v => Some v
                   | None => slot d L F
                   end.
Proof.
  destruct w as [[L0 F0] [v|]]; cbn [fst snd]; intros [HL HF] Hin; unfold write;
    cbn [fst snd].
  - assert (is_Some (d !! L0)) as [fs Hfs].
    { apply HL. unfold slot in Hin. destruct (D !! L0); [by eexists|].
      by destruct Hin. }
    unfold set_field. rewrite Hfs. eexists. split; [reflexivity|].
    pose proof (slot_set_field L0 F0 v d fs Hfs) as Hs.
    split; [split|].
    + intros L. rewrite <- HL.
      destruct (decide (L0 = L)) as [<-|Hne].
      * rewrite lookup_insert_eq, Hfs. split; by eexists.
      * by rewrite lookup_insert_ne.
    + intros L F. rewrite Hs, <- HF.
      destruct (String.eqb_spec L0 L) as [<-|]; cbn [andb]; [|done].
      destruct (String.eqb_spec F0 F) as [<-|]; [|done].
      split; [intros _; by apply HF|by eexists].
    + intros L F. rewrite Hs. by destruct (_ && _).
  - eexists. split; [reflexivity|]. split; [done|].
    intros L F. by destruct (_ && _).
Qed.

Lemma run_writes_spec (D : layers) ws :
  Forall (fun w => is_Some (slot D w.1.1 w.1.2)) ws →
  ∀ d, same_shape D d →
  ∃ d', run_writes ws d = ROk d' ∧ same_shape D d'
        ∧ ∀ L F, slot d' L F = match last_write ws L F with
                               | Some v => Some v
                               | None => slot d L F
                               end.
Proof.
  induction 1 as [|w ws Hw _ IH]; intros d Hd.
  - exists d. split; [reflexivity|]. split; [exact Hd|]. intros L F. reflexivity.
  - destruct (write_spec D d w Hd Hw) as (d1 & Hw1 & Hd1 & Hs1).
    destruct (IH d1 Hd1) as (d' & Hr & Hd' & Hs').
    exists d'. cbn [run_writes]. rewrite Hw1. cbn [rbind].
    split; [exact Hr|]. split; [exact Hd'|].
    intros L F. rewrite Hs', Hs1. cbn [last_write].
    by destruct (last_write ws L F).
Qed.

Lemma same_shape_refl (D : layers) : same_shape D D.
Proof. by split. Qed.

Lemma writes_in_structure v url args (D : layers) :
  get_template_structure v = ROk D →
  Forall (fun w => is_Some (slot D w.1.1 w.1.2)) (writes v url args).
Proof.
  unfold get_template_structure, writes.
  destruct (v =? 1).
  { intros [= <-]. repeat (constructor; [by eexists|]). constructor. }
  destruct (v =? 2).
  { intros [= <-]. repeat (constructor; [by eexists|]). constructor. }
  destruct (v =? 3); [|discriminate].
  intros [= <-]. repeat (constructor; [by eexists|]). constructor.
Qed.

Lemma get_template_structure_known v :
  1 ≤ v ≤ 3 → ∃ D, get_template_structure v = ROk D.
Proof.
  intros Hv. assert (v = 1 ∨ v = 2 ∨ v = 3) as [->|[->| ->]] by lia;
    by eexists.
Qed.

Lemma get_template_structure_unknown v :
  ¬ (1 ≤ v ≤ 3) → get_template_structure v = RRaise TypeError.
Proof.
  intros Hv. unfold get_template_structure.
  destruct (Z.eqb_spec v 1); [lia|]. destruct (Z.eqb_spec v 2); [lia|].
  destruct (Z.eqb_spec v 3); [lia|]. reflexivity.
Qed.

Lemma build_layers_slots v url args :
  1 ≤ v ≤ 3 →
  ∃ D d, get_template_structure v = ROk D
         ∧ build_layers v url args D = ROk d
         ∧ same_shape D d
         ∧ ∀ L F, slot d L F = match last_write (writes v url args) L F with
                               | Some x => Some x
                               | None => slot D L F
                               end.
Proof.
  intros Hv. destruct (get_template_structure_known v Hv) as [D HS].
  destruct (run_writes_spec D (writes v url args)
              (writes_in_structure v url args D HS) D (same_shape_refl D))
    as (d & Hr & Hd & Hs).
  exists D, d. by rewrite build_layers_writes.
Qed.

Lemma last_write_agree ws1 ws2 L F :
  Forall2 (fun w1 w2 : string * string * option string =>
             w1.1 = w2.1 ∧ (w1.1 = (L, F) → w1.2 = w2.2)) ws1 ws2 →
  last_write ws1 L F = last_write ws2 L F.
Proof.
  induction 1 as [|[[L1 F1] x1] [[L2 F2] x2] ws1 ws2 [He Hx] _ IH];
    [reflexivity|].
  cbn [last_write fst snd] in *. rewrite IH.
  destruct (last_write ws2 L F); [reflexivity|].
  injection He as <- <-.
  destruct (String.eqb_spec L1 L) as [<-|]; cbn [andb]; [|reflexivity].
  destruct (String.eqb_spec F1 F) as [<-|]; [|reflexivity].
  by apply Hx.
Qed.


Ltac forget_options args :=
  cbv beta iota delta [writes Z.eqb Pos.eqb or_else];
  repeat match goal with
         | |- context [truthy (args !! ?k)] =>
             generalize (truthy (args !! k)); intro
         end.

Ltac options_cases :=
  repeat match goal with
         | |- context [match ?o with _ => _ end] => is_var o; destruct o
         end.

(** X13. The poster tool never adds or removes a layer or a field: whatever
    the image and the options, the layer map it renders has the layers
    and the fields of the structure of the template, and building it
    never fails. *)
Theorem poster_keeps_layers_and_fields (v : Z) (url : string)
    (args : gmap string string) :
  1 ≤ v ≤ 3 →
  ∃ D d, get_template_structure v = ROk D
         ∧ build_layers v url args D = ROk d
         ∧ (∀ L, is_Some (d !! L) ↔ is_Some (D !! L))
         ∧ (∀ L F, is_Some (slot d L F) ↔ is_Some (slot D L F)).
Proof.
  intros Hv.
  destruct (build_layers_slots v url args Hv) as (D & d & HS & Hb & [H1 H2] & _).
  by exists D, d.
Qed.

Lemma poster_keeps_layers_and_fields_witness :
  1 ≤ 3 ≤ 3
  ∧ ∃ D d, get_template_structure 3 = ROk D
           ∧ build_layers 3 "https://www.x.com/a.jpg"
               {[ "title_1_text" := "OPEN HOUSE" ]} D = ROk d
           ∧ (∀ L, is_Some (d !! L) ↔ is_Some (D !! L))
           ∧ (∀ L F, is_Some (slot d L F) ↔ is_Some (slot D L F)).
Proof.
  split; [lia|].
  apply (poster_keeps_layers_and_fields 3 "https://www.x.com/a.jpg"
           {[ "title_1_text" := "OPEN HOUSE" ]}).
  lia.
Defined.

(** X14. Each element of the catalogue of a template other than the main
    image stands for one slot of the poster: given and not empty, it
    replaces the value of that slot; otherwise the slot is as in the
    poster built from the image alone, and so is every slot that no
    element stands for. *)
Theorem poster_options_take_effect (v : Z) (url : string)
    (args : gmap string string) :
  1 ≤ v ≤ 3 →
  customizable_elements v = "image_url" :: (param_slots v).*1
  ∧ ∃ D d base,
      get_template_structure v = ROk D
      ∧ build_layers v url args D = ROk d
      ∧ build_layers v url ∅ D = ROk base
      ∧ (∀ k L F, (k, (L, F)) ∈ param_slots v →
           slot d L F = match truthy (args !! k) with
                        | Some x => Some x
                        | None => slot base L F
                        end)
      ∧ (∀ L F, (L, F) ∉ (param_slots v).*2 → slot d L F = slot base L F).
Proof.
  intros Hv.
  destruct (build_layers_slots v url args Hv) as (D & d & HS & Hb & _ & Hd).
  destruct (build_layers_slots v url ∅ Hv) as (S' & base & HS' & Hb' & _ & Hbase).
  rewrite HS in HS'. injection HS' as <-.
  split.
  { assert (v = 1 ∨ v = 2 ∨ v = 3) as [->|[->| ->]] by lia; reflexivity. }
  exists D, d, base. split; [exact HS|]. split; [exact Hb|]. split; [exact Hb'|].
  split.
  - intros k L F Hin. rewrite Hd, Hbase.
    assert (v = 1 ∨ v = 2 ∨ v = 3) as [->|[->| ->]] by lia;
      injection HS as <-; clear -Hin;
      cbv beta iota delta [param_slots Z.eqb Pos.eqb] in Hin;
      repeat (apply elem_of_cons in Hin as [Hin|Hin];
              [injection Hin as -> -> ->; forget_options args; vm_compute;
               options_cases; reflexivity|]);
      by apply not_elem_of_nil in Hin.
  - intros L F Hout. rewrite Hd, Hbase.
    rewrite (last_write_agree (writes v url args) (writes v url ∅) L F);
      [reflexivity|].
    assert (v = 1 ∨ v = 2 ∨ v = 3) as [->|[->| ->]] by lia; clear -Hout;
      cbv beta iota delta [writes Z.eqb Pos.eqb];
      repeat (constructor;
              [split; [reflexivity|];
               cbn [fst snd]; intros [= <- <-];
               first [reflexivity | exfalso; apply Hout; cbn; in_list]|]);
      constructor.
Qed.

Lemma poster_options_take_effect_witness :
  1 ≤ 1 ≤ 3
  ∧ customizable_elements 1 = "image_url" :: (param_slots 1).*1
  ∧ ∃ D d base,
      get_template_structure 1 = ROk D
      ∧ build_layers 1 "https://www.x.com/a.jpg" listing D = ROk d
      ∧ build_layers 1 "https://www.x.com/a.jpg" ∅ D = ROk base
      ∧ (∀ k L F, (k, (L, F)) ∈ param_slots 1 →
           slot d L F = match truthy (listing !! k) with
                        | Some x => Some x
                        | None => slot base L F
                        end)
      ∧ (∀ L F, (L, F) ∉ (param_slots 1).*2 → slot d L F = slot base L F).
Proof.
  split; [lia|].
  apply (poster_options_take_effect 1 "https://www.x.com/a.jpg" listing).
  lia.
Defined.

(** X15. An optional parameter of the tool that is not in the catalogue of
    the chosen template has no effect on the result of the tool. *)
Theorem poster_ignores_options_of_other_templates (env : credentials)
    (post : string → string → layers → http_outcome) (v : Z)
    (url k x : string) (args : gmap string string) :
  k ∈ optional_parameters →
  k ∉ customizable_elements v →
  generate_real_estate_poster env post v url (<[k := x]> args)
  = generate_real_estate_poster env post v url args.
Proof.
  intros _ Hk. unfold generate_real_estate_poster.
  destruct (get_template_structure v) as [D|]; [|reflexivity]. cbn [rbind].
  assert (build_layers v url (<[k := x]> args) D = build_layers v url args D)
    as ->; [|reflexivity].
  unfold build_layers, customizable_elements in *.
  destruct (v =? 1).
  { rewrite !lookup_insert_ne by (intros ->; apply Hk; in_list). reflexivity. }
  destruct (v =? 2).
  { rewrite !lookup_insert_ne by (intros ->; apply Hk; in_list). reflexivity. }
  destruct (v =? 3); [|reflexivity].
  rewrite !lookup_insert_ne by (intros ->; apply Hk; in_list). reflexivity.
Qed.

Lemma poster_ignores_options_of_other_templates_witness :
  "cta_color" ∈ optional_parameters
  ∧ ("cta_color" ∉ customizable_elements 3)
  ∧ generate_real_estate_poster placeholder_env no_service 3
      "https://www.x.com/a.jpg" (<["cta_color" := "red"]> ∅)
    = generate_real_estate_poster placeholder_env no_service 3
        "https://www.x.com/a.jpg" ∅.
Proof.
  assert ("cta_color" ∈ optional_parameters) as Hin by (vm_compute; in_list).
  assert ("cta_color" ∉ customizable_elements 3) as Hout.
  { simpl. intros H.
    repeat (apply elem_of_cons in H as [H|H]; [discriminate H|]).
    by apply not_elem_of_nil in H. }
  split; [exact Hin|]. split; [exact Hout|].
  exact (poster_ignores_options_of_other_templates placeholder_env no_service 3
           "https://www.x.com/a.jpg" "cta_color" "red" ∅ Hin Hout).
Defined.




(** X17. The failures of the tool.  It raises [TypeError] exactly when the
    template number is not 1, 2 or 3, whatever the credentials; it never
    raises [KeyError]; and it raises the error of the missing
    credentials exactly when the template is known and the API key or
    the identifier of the template is unset or empty. *)
Theorem poster_tool_failures (env : credentials)
    (post : string → string → layers → http_outcome) (v : Z)
    (url : string) (args : gmap string string) :
  (generate_real_estate_poster env post v url args = RRaise TypeError
   ↔ ¬ (1 ≤ v ≤ 3))
  ∧ (∀ k, generate_real_estate_poster env post v url args ≠ RRaise (KeyError k))
  ∧ (generate_real_estate_poster env post v url args = RRaise MissingCredentials
     ↔ 1 ≤ v ≤ 3
       ∧ (truthy (api_key env) = None
          ∨ truthy (get_template_id env v) = None)).
Proof.
  destruct (decide (1 ≤ v ≤ 3)) as [Hv|Hv].
  - destruct (build_layers_slots v url args Hv) as (D & d & HS & Hb & _ & _).
    unfold generate_real_estate_poster. rewrite HS. cbn [rbind].
    rewrite Hb. cbn [rbind]. unfold render_template.
    destruct (truthy (api_key env)) as [key|];
      [destruct (truthy (get_template_id env v)) as [id|]|].
    + destruct (String.eqb key placeholder_key || String.eqb id placeholder_id).
      * split; [split; [discriminate|tauto]|]. split; [discriminate|].
        split; [discriminate|]. intros [_ [?|?]]; discriminate.
      * destruct (post key id d) as [c t j|m]; [destruct (c =? 200)|];
          (split; [split; [discriminate|tauto]|]; split; [discriminate|];
           split; [discriminate|]; intros [_ [?|?]]; discriminate).
    + split; [split; [discriminate|tauto]|]. split; [discriminate|].
      split; [|reflexivity]. intros _. split; [exact Hv|by right].
    + split; [split; [discriminate|tauto]|]. split; [discriminate|].
      split; [|reflexivity]. intros _. split; [exact Hv|by left].
  - unfold generate_real_estate_poster.
    rewrite (get_template_structure_unknown v Hv). cbn [rbind].
    split; [tauto|]. split; [discriminate|].
    split; [discriminate|]. tauto.
Qed.

Lemma poster_tool_failures_witness :
  ¬ (1 ≤ 4 ≤ 3)
  ∧ generate_real_estate_poster placeholder_env no_service 4
      "https://www.x.com/a.jpg" ∅ = RRaise TypeError.
Proof.
  assert (¬ (1 ≤ 4 ≤ 3)) as Hv by lia.
  split; [exact Hv|].
  exact (proj2 (proj1 (poster_tool_failures placeholder_env no_service 4
                         "https://www.x.com/a.jpg" ∅)) Hv).
Defined.

(** ** The chat endpoint *)

Lemma human_messages_note (c : string) (st : AgentState) :
  human_messages (append_message (SystemMessage c) st) = human_messages st.
Proof.
  unfold human_messages, append_message. simpl. rewrite omap_app. simpl.
  apply app_nil_r.
Qed.

Lemma switch_requested_human (v : Z) (st : AgentState) :
  human_messages (switch_requested v st).1 = human_messages st.
Proof.
  unfold switch_requested. destruct (_ && _); cbn [fst]; [|done].
  by rewrite human_messages_note.
Qed.

Lemma switch_requested_version (v : Z) (st : AgentState) :
  v ≠ 0 → 1 ≤ v ≤ 3 → template_version (switch_requested v st).1 = v.
Proof.
  intros H0 Hv. unfold switch_requested.
  destruct (Z.eqb_spec v 0); [done|].
  destruct (Z.leb_spec 1 v); [|lia]. destruct (Z.leb_spec v 3); [|lia].
  destruct (Z.eqb_spec (template_version st) v); by cbn.
Qed.

Lemma generate_template_keeps invoke (s s' : AgentState) :
  generate_template invoke s = Ok s' →
  human_messages s' = human_messages s
  ∧ template_version s' = template_version s
  ∧ template_params s' = template_params s.
Proof.
  intros H. apply generate_template_cases in H
    as (p & _ & [[_ ->]|[(u & r & _ & _ & _ & ->)|(u & e & _ & _ & _ & ->)]]).
  - split; [apply human_messages_note|done].
  - done.
  - split; [|done]. unfold error_note.
    destruct (_ && _); apply human_messages_note.
Qed.

Lemma explicit_generation_keeps invoke (st : AgentState) :
  human_messages (explicit_generation invoke st) = human_messages st
  ∧ template_version (explicit_generation invoke st) = template_version st.
Proof.
  unfold explicit_generation.
  destruct (generate_template invoke _) as [s|] eqn:Hg.
  - apply generate_template_keeps in Hg as (Hh & Hv & _).
    rewrite human_messages_note in Hh. cbn in Hv.
    destruct (result_url s).
    + rewrite human_messages_note. by split.
    + rewrite human_messages_note. by split.
  - by rewrite !human_messages_note.
Qed.

Lemma prepare_keeps invoke (request : ChatRequest) (st : AgentState) :
  last (human_messages (prepare invoke request st)) = Some (user_prompt request)
  ∧ template_version (prepare invoke request st)
    = template_version (switch_requested (requested_template request) st).1.
Proof.
  unfold prepare.
  pose proof (switch_requested_human (requested_template request) st) as Hh.
  destruct (switch_requested (requested_template request) st) as [s sw].
  cbn [fst] in *.
  assert (last (human_messages
                  (append_message (HumanMessage (user_prompt request)) s))
          = Some (user_prompt request)) as Hl by apply last_human_appended.
  set (s1 := append_message (HumanMessage (user_prompt request)) s) in *.
  assert (template_version s1 = template_version s) as Hv by done.
  destruct (_ || sw).
  - destruct (explicit_generation_keeps invoke s1) as [-> ->]. by split.
  - destruct (any_keyword url_keywords _); [|by split].
    destruct (result_url s1); [|by split].
    rewrite human_messages_note. by split.
Qed.

Lemma run_graph_course invoke llm (st st' : AgentState) :
  run_graph invoke llm st = Ok st' →
  ∃ s1 s3,
    user_turn st = Ok s1
    ∧ st' = ai_turn llm s3
    ∧ template_version s3 = template_version s1
    ∧ template_params s3 = template_params s1
    ∧ (status s3 = "COLLECTING_INFO" ∨ status s3 = "TEMPLATE_GENERATED").
Proof.
  unfold run_graph.
  destruct (user_turn st) as [s1|]; cbn [bind]; [|discriminate].
  destruct (check_requirements_fields s1) as (Hp & Hv & _).
  destruct (wants_generation (check_requirements s1)) eqn:Hw.
  - destruct (generate_template invoke _) as [s3|] eqn:Hg; cbn [bind];
      [|discriminate].
    intros H. apply Ok_inj in H as <-. exists s1, s3.
    split; [done|]. split; [done|].
    pose proof (generate_template_keeps _ _ _ Hg) as (_ & Hv3 & Hp3).
    split; [congruence|]. split; [congruence|].
    apply generate_template_cases in Hg
      as (p & _ & [[_ ->]|[(u & r & _ & _ & _ & ->)|(u & e & _ & _ & _ & ->)]]);
      simpl; auto.
  - cbn [bind]. intros H. apply Ok_inj in H as <-.
    exists s1, (check_requirements s1). split; [done|]. split; [done|].
    split; [done|]. split; [done|].
    destruct (check_requirements_frame s1) as [_ [Hc|Hr]]; [by left|].
    unfold wants_generation in Hw. rewrite Hr in Hw. discriminate Hw.
Qed.

Lemma run_graph_returns invoke llm (st s1 : AgentState) (content : string) :
  last (human_messages st) = Some content →
  user_turn st = Ok s1 →
  ∃ st', run_graph invoke llm st = Ok st'
         ∧ ∃ reply, last (messages st') = Some (AIMessage reply).
Proof.
  intros Hl H1. unfold run_graph. rewrite H1. cbn [bind].
  destruct (user_turn_fields _ _ _ Hl H1) as (e & pm & e' & _ & _ & _ & _ & Hp & _).
  destruct (wants_generation (check_requirements s1)).
  - destruct (check_requirements_fields s1) as (Hc & _).
    rewrite <- Hc in Hp.
    destruct (generate_template_returns invoke _ _ Hp) as [s3 ->].
    cbn [bind]. eexists. split; [done|]. eexists.
    unfold ai_turn, append_message. simpl. apply last_snoc.
  - cbn [bind]. eexists. split; [done|]. eexists.
    unfold ai_turn, append_message. simpl. apply last_snoc.
Qed.

Lemma chat_endpoint_reply invoke llm uuid4 welcome (request : ChatRequest)
    (sessions : gmap string AgentState) resp sessions' :
  chat_endpoint invoke llm uuid4 welcome request sessions = Reply resp sessions' →
  ∃ st st',
    run_graph invoke llm (prepare invoke request st) = Ok st'
    ∧ (open_session uuid4 welcome request sessions).1.2 = st
    ∧ sessions' !! response_session_id resp = Some st'
    ∧ template_version st' = response_template_version resp
    ∧ status st' = response_status resp
    ∧ last (messages st') = Some (AIMessage (response resp)).
Proof.
  unfold chat_endpoint.
  destruct (open_session uuid4 welcome request sessions) as [[id st] ss].
  destruct (run_graph invoke llm (prepare invoke request st)) as [st'|] eqn:Hr;
    [|discriminate].
  destruct (prepare_keeps invoke request st) as [Hl _].
  pose proof Hr as Hr'. unfold run_graph in Hr'.
  destruct (user_turn (prepare invoke request st)) as [s1|] eqn:H1;
    [|discriminate].
  destruct (run_graph_returns invoke llm _ s1 _ Hl H1) as (st2 & Hr2 & reply & Hlast).
  assert (st2 = st') as -> by congruence.
  rewrite Hlast. intros [= <- <-]. exists st, st'. cbn.
  split; [done|]. split; [done|]. split; [apply lookup_insert_eq|done].
Qed.

(** X18. The template of a reply is the one read from the prompt of the
    request alone, 1 when the prompt carries no template signal: neither
    the template the request asks for in its own field nor the template
    of the session has a say.  The status of a reply is COLLECTING_INFO
    or TEMPLATE_GENERATED, the reply is the last message of the history,
    and the session stored under the identifier of the reply is the one
    the reply describes. *)
Theorem chat_reply_follows_the_prompt
    (invoke : Z → gmap string string → string + gmap string string)
    (llm : AgentState → string) (uuid4 welcome : string)
    (request : ChatRequest) (sessions : gmap string AgentState)
    (resp : ChatResponse) (sessions' : gmap string AgentState) :
  chat_endpoint invoke llm uuid4 welcome request sessions = Reply resp sessions' →
  response_template_version resp
  = extract_template_preference (user_prompt request)
  ∧ (response_status resp = "COLLECTING_INFO"
     ∨ response_status resp = "TEMPLATE_GENERATED")
  ∧ ∃ st',
      sessions' !! response_session_id resp = Some st'
      ∧ template_version st' = response_template_version resp
      ∧ status st' = response_status resp
      ∧ last (messages st') = Some (AIMessage (response resp)).
Proof.
  intros H.
  apply chat_endpoint_reply in H as (st & st' & Hr & _ & Hs & Hv & Hst & Hl).
  destruct (prepare_keeps invoke request st) as [Hlast _].
  apply run_graph_course in Hr as (s1 & s3 & H1 & -> & Hv3 & _ & Hs3).
  destruct (user_turn_fields _ _ _ Hlast H1) as (e & pm & e' & _ & _ & _ & Hv1 & _).
  split; [|split].
  - rewrite <- Hv. cbn. by rewrite Hv3.
  - rewrite <- Hst. exact Hs3.
  - by eexists.
Qed.

Lemma chat_reply_follows_the_prompt_witness :
  ∃ resp sessions',
    chat_endpoint render_ok reply_ok "id-1" "welcome"
      (mkChatRequest None "thanks a lot" (Some 2)) ∅ = Reply resp sessions'
    ∧ response_template_version resp = 1.
Proof.
  assert (∃ resp sessions',
            chat_endpoint render_ok reply_ok "id-1" "welcome"
              (mkChatRequest None "thanks a lot" (Some 2)) ∅
            = Reply resp sessions') as (resp & sessions' & Hrun)
    by (eexists _, _; vm_compute; reflexivity).
  exists resp, sessions'. split; [exact Hrun|].
  destruct (chat_reply_follows_the_prompt _ _ _ _ _ _ _ _ Hrun) as [Hv _].
  rewrite Hv. vm_compute. reflexivity.
Defined.

(** X19. A template asked for in the field of the request does not last
    when the prompt reads as another template: the session ends under
    the template of the prompt, and its parameters are those read from
    this prompt alone, so that what the session held before, the image
    URL the endpoint carries over included, is gone. *)
Theorem chat_request_template_is_overridden
    (invoke : Z → gmap string string → string + gmap string string)
    (llm : AgentState → string) (uuid4 welcome : string)
    (request : ChatRequest) (sessions : gmap string AgentState)
    (resp : ChatResponse) (sessions' : gmap string AgentState) (v : Z) :
  requested_version request = Some v →
  1 ≤ v ≤ 3 →
  extract_template_preference (user_prompt request) ≠ v →
  chat_endpoint invoke llm uuid4 welcome request sessions = Reply resp sessions' →
  ∃ st' e pm e',
    sessions' !! response_session_id resp = Some st'
    ∧ template_version st' = extract_template_preference (user_prompt request)
    ∧ extract_template_params (user_prompt request)
        (extract_template_preference (user_prompt request)) = Ok e
    ∧ direct_price_modification (chars_of (user_prompt request))
        (extract_template_preference (user_prompt request)) e = Ok (pm, e')
    ∧ template_params st' = Some e'.
Proof.
  intros Hreq Hv Hne H.
  apply chat_endpoint_reply in H as (st & st' & Hr & _ & Hs & _).
  destruct (prepare_keeps invoke request st) as [Hlast Hpv].
  assert (requested_template request = v) as Hrt.
  { unfold requested_template. rewrite Hreq.
    destruct (Z.eqb_spec v 0); [lia|done]. }
  rewrite Hrt, switch_requested_version in Hpv by lia.
  apply run_graph_course in Hr as (s1 & s3 & H1 & -> & Hv3 & Hp3 & _).
  destruct (user_turn_fields _ _ _ Hlast H1)
    as (e & pm & e' & He & Hd & _ & Hv1 & Hp1 & _).
  exists (ai_turn llm s3), e, pm, e'. split; [done|].
  split; [cbn; congruence|]. split; [done|]. split; [done|].
  cbn. rewrite Hp3, Hp1. f_equal.
  unfold switch_template. rewrite Hpv.
  destruct (Z.eqb_spec (extract_template_preference (user_prompt request)) v);
    [done|].
  unfold params_of. simpl. apply (right_id_L ∅ (∪)).
Qed.

Lemma chat_request_template_is_overridden_witness :
  ∃ resp sessions' st',
    chat_endpoint render_ok reply_ok "id-1" "welcome"
      (mkChatRequest (Some "s") "thanks a lot" (Some 2))
      {[ "s" := session "hello" "COLLECTING_INFO" listing 1 ]}
    = Reply resp sessions'
    ∧ sessions' !! response_session_id resp = Some st'
    ∧ template_version st' = 1
    ∧ template_params st' = Some ∅.
Proof.
  assert (∃ resp sessions',
            chat_endpoint render_ok reply_ok "id-1" "welcome"
              (mkChatRequest (Some "s") "thanks a lot" (Some 2))
              {[ "s" := session "hello" "COLLECTING_INFO" listing 1 ]}
            = Reply resp sessions') as (resp & sessions' & Hrun)
    by (eexists _, _; vm_compute; reflexivity).
  destruct (chat_request_template_is_overridden render_ok reply_ok "id-1"
              "welcome" (mkChatRequest (Some "s") "thanks a lot" (Some 2))
              {[ "s" := session "hello" "COLLECTING_INFO" listing 1 ]}
              resp sessions' 2 eq_refl)
    with (3 := Hrun) as (st' & e & pm & e' & Hs & Hv & He & Hd & Hp);
    [lia|vm_compute; discriminate|].
  exists resp, sessions', st'. split; [exact Hrun|]. split; [exact Hs|].
  split; [rewrite Hv; vm_compute; reflexivity|].
  vm_compute in He. apply Ok_inj in He as <-.
  vm_compute in Hd. injection Hd as <- <-. exact Hp.
Defined.


